(** * Nightshade: solar visibility windows and terrain obstruction

    A shallow embedding of [src/terrain.py], [src/solar.py] and
    [src/main.py], and the properties of the specification checked
    against it.

    Modelling conventions.
    - In [Py], [Terrain], [Solar] and [Main] a Python [float] is an exact
      rational ([Q]); two floats are the same number when they are [Qeq]
      ([==]).  Rounding, infinities and NaN are outside that model: a
      theorem stated there carries the hypotheses under which the float
      code takes the same branches.  Where rounding decides the outcome,
      [Binary64] embeds the same functions of [src/terrain.py] on IEEE
      binary64 numbers (the primitive floats of the kernel), and the
      inputs in question are evaluated there.
    - A Python exception is a value of [exn], carried by [result].
    - A [datetime] is the number of microseconds since 0001-01-01T00:00:00
      (naive UTC), a [timedelta] a number of microseconds, both in [Z].
      Python raises [OverflowError] when datetime arithmetic leaves
      [datetime.min .. datetime.max]; the model computes in [Z], and a
      theorem that promises a result carries the range ([sweep_in_range],
      [scan_in_range]) as a hypothesis.
    - The astronomical position provider ([get_solar_position], astropy) is
      a parameter: a total function from an instant to altitude and azimuth.
    - A [while] loop is a function with fuel; [OutOfFuel] means the fuel ran
      out.  Every entry point fixes its own fuel, and the theorems show that
      it is enough. *)

From Stdlib Require Import ZArith QArith Qround Qabs List Bool Lia Lqa.
From Stdlib Require Import SetoidList.
From Stdlib Require Floats.
From Stdlib Require Import Sorting.Sorted Sorting.Permutation.
Import ListNotations.

Local Open Scope Q_scope.

(** ** Python runtime: exceptions, list indexing, float operators *)

Module Py.

Inductive exn : Type :=
| IndexError
| KeyError
| ZeroDivisionError.

(** The outcome of a call: a value, an exception, or a loop out of fuel. *)
Inductive result (A : Type) : Type :=
| Ok (a : A)
| Raise (e : exn)
| OutOfFuel.

Arguments Ok {A} a.
Arguments Raise {A} e.
Arguments OutOfFuel {A}.

Definition bind {A B : Type} (m : result A) (k : A -> result B) : result B :=
  match m with
  | Ok a => k a
  | Raise e => Raise e
  | OutOfFuel => OutOfFuel
  end.

Notation "x <- m ;; k" := (bind m (fun x => k))
  (at level 61, m at next level, right associativity).

(** [x < y] on floats. *)
Definition Qlt_bool (x y : Q) : bool := negb (Qle_bool y x).

(** [x % m] on floats, for a positive [m], computed without rounding: the
    result has the sign of [m] and lies in [[0, m)].  On binary64 numbers
    the remainder of a negative [x] is rounded and can be [m] itself
    ([Binary64.float_mod]). *)
Definition float_mod (x m : Q) : Q := x - m * inject_Z (Qfloor (x / m)).

(** [x / y] on floats, computed without rounding; the denominator is zero
    when it is the rational zero ([Binary64.float_div] tests the rounded
    one). *)
Definition float_div (x y : Q) : result Q :=
  if Qeq_bool y 0 then Raise ZeroDivisionError else Ok (x / y).

(** [l[i]]: a negative index counts from the end. *)
Definition list_index {A : Type} (l : list A) (i : Z) : result A :=
  let n := Z.of_nat (length l) in
  let j := if (i <? 0)%Z then (i + n)%Z else i in
  if ((j <? 0) || (n <=? j))%Z then Raise IndexError
  else match nth_error l (Z.to_nat j) with
       | Some a => Ok a
       | None => Raise IndexError
       end.

(** A [dict] with float keys, in insertion order. *)
Definition dict : Type := list (Q * Q).

Fixpoint dict_find (d : dict) (k : Q) : option Q :=
  match d with
  | [] => None
  | (k', v) :: d' => if Qeq_bool k' k then Some v else dict_find d' k
  end.

(** [k in d] *)
Definition dict_contains (d : dict) (k : Q) : bool :=
  match dict_find d k with Some _ => true | None => false end.

(** [d[k]] *)
Definition dict_getitem (d : dict) (k : Q) : result Q :=
  match dict_find d k with Some v => Ok v | None => Raise KeyError end.

(** [d[k] = v]: an existing key keeps its place and its key object. *)
Fixpoint dict_setitem (d : dict) (k v : Q) : dict :=
  match d with
  | [] => [(k, v)]
  | (k', v') :: d' =>
      if Qeq_bool k' k then (k', v) :: d' else (k', v') :: dict_setitem d' k v
  end.

(** [d.keys()] *)
Definition dict_keys (d : dict) : list Q := map fst d.

(** [sorted(l)]: a stable insertion sort on [<]. *)
Fixpoint insert_sorted (x : Q) (l : list Q) : list Q :=
  match l with
  | [] => [x]
  | y :: l' => if Qlt_bool x y then x :: y :: l' else y :: insert_sorted x l'
  end.

Definition sorted (l : list Q) : list Q :=
  fold_left (fun acc x => insert_sorted x acc) l [].

End Py.

Import Py.

(** ** [src/terrain.py] *)

Module Terrain.

Record TerrainProfile : Type := mkTerrainProfile {
  elevations : dict;            (* azimuth -> elevation (degrees) *)
  reference_elevation : Q       (* elevation at the observation point *)
}.

(** [TerrainProfile()] *)
Definition init : TerrainProfile := mkTerrainProfile [] 0.

(** [add_elevation_point(azimuth, elevation_angle)] *)
Definition add_elevation_point (self : TerrainProfile)
    (azimuth elevation_angle : Q) : TerrainProfile :=
  let azimuth := float_mod azimuth 360 in
  mkTerrainProfile (dict_setitem (elevations self) azimuth elevation_angle)
                   (reference_elevation self).

(** [load_from_dict(data, reference_elevation)]: the comprehension
    [{float(k): float(v) for k, v in data.items()}] inserts the items of
    [data] in order into a fresh dict; [data] is given by its items after
    [float(.)]. *)
Definition load_from_dict (self : TerrainProfile) (data : list (Q * Q))
    (reference_elevation : Q) : TerrainProfile :=
  mkTerrainProfile
    (fold_left (fun d kv => dict_setitem d (fst kv) (snd kv)) data [])
    reference_elevation.

(** The parsed content of a terrain JSON file: the items of its
    ["elevations"] object and its ["reference_elevation"], each absent or
    present. *)
Record TerrainFile : Type := mkTerrainFile {
  file_elevations : option (list (Q * Q));
  file_reference_elevation : option Q
}.

(** [load_from_file(filepath)] on the parsed content of the file. *)
Definition load_from_file (self : TerrainProfile) (data : TerrainFile)
    : TerrainProfile :=
  load_from_dict self
    (match file_elevations data with Some e => e | None => [] end)
    (match file_reference_elevation data with Some r => r | None => 0 end).

(** The [for i, az in enumerate(azimuths)] loop: the index of the first
    azimuth strictly greater than the query, [None] when there is none. *)
Fixpoint first_greater (azimuths : list Q) (azimuth : Q) (i : nat)
    : option nat :=
  match azimuths with
  | [] => None
  | az :: rest =>
      if Qlt_bool azimuth az then Some i
      else first_greater rest azimuth (S i)
  end.

(** [get_obstruction_angle(azimuth)] *)
Definition get_obstruction_angle (self : TerrainProfile) (azimuth : Q)
    : result Q :=
  let azimuth := float_mod azimuth 360 in
  if dict_contains (elevations self) azimuth then
    dict_getitem (elevations self) azimuth
  else
    let azimuths := sorted (dict_keys (elevations self)) in
    match first_greater azimuths azimuth 0 with
    | None =>
        az1 <- list_index azimuths (-1) ;;
        az2 <- list_index azimuths 0 ;;
        el1 <- dict_getitem (elevations self) az1 ;;
        el2 <- dict_getitem (elevations self) az2 ;;
        frac <- float_div (azimuth - az1) (360 + az2 - az1) ;;
        Ok (el1 + frac * (el2 - el1))
    | Some O =>
        az0 <- list_index azimuths 0 ;;
        dict_getitem (elevations self) az0
    | Some idx =>
        az1 <- list_index azimuths (Z.of_nat idx - 1) ;;
        az2 <- list_index azimuths (Z.of_nat idx) ;;
        el1 <- dict_getitem (elevations self) az1 ;;
        el2 <- dict_getitem (elevations self) az2 ;;
        frac <- float_div (azimuth - az1) (az2 - az1) ;;
        Ok (el1 + frac * (el2 - el1))
    end.

(** [is_sun_blocked(sun_altitude, sun_azimuth)] *)
Definition is_sun_blocked (self : TerrainProfile) (sun_altitude sun_azimuth : Q)
    : result bool :=
  obstruction_angle <- get_obstruction_angle self sun_azimuth ;;
  Ok (Qle_bool sun_altitude obstruction_angle).

(** The invariant of the data model on a profile: every stored azimuth
    lies in [[0, 360)]. *)
Definition normalized (self : TerrainProfile) : Prop :=
  forall k, In k (dict_keys (elevations self)) -> 0 <= k /\ k < 360.

(** The same, decided. *)
Definition normalizedb (self : TerrainProfile) : bool :=
  forallb (fun k => Qle_bool 0 k && Qlt_bool k 360)
          (dict_keys (elevations self)).

(** Two outcomes are the same when they raise the same exception or return
    the same number. *)
Definition result_eq (x y : result Q) : Prop :=
  match x, y with
  | Ok a, Ok b => a == b
  | Raise e, Raise e' => e = e'
  | OutOfFuel, OutOfFuel => True
  | _, _ => False
  end.

End Terrain.

Import Terrain.

(** ** [datetime] and [timedelta] *)

Module DateTime.

Local Open Scope Z_scope.

Definition SECOND : Z := 1000000.
Definition MINUTE : Z := 60 * SECOND.
Definition HOUR : Z := 60 * MINUTE.
Definition DAY : Z := 24 * HOUR.

(** [timedelta(minutes=n)], [timedelta(hours=n)], [timedelta(days=n)] *)
Definition minutes (n : Z) : Z := n * MINUTE.
Definition hours (n : Z) : Z := n * HOUR.
Definition days (n : Z) : Z := n * DAY.

(** [td.days]: a [timedelta] is normalised with a non-negative time of
    day, so its [days] field is the floor. *)
Definition td_days (td : Z) : Z := td / DAY.

(** [td.total_seconds() > s] for an integer [s]: the quotient by [10**6]
    is correctly rounded, so the comparison is the one on microseconds. *)
Definition total_seconds_gt (td s : Z) : bool := s * SECOND <? td.

(** [_divide_and_round(a, b)]: nearest integer to [a / b], ties to even. *)
Definition divide_and_round (a b : Z) : Z :=
  let q := a / b in
  let r := 2 * (a mod b) in
  let greater_than_half := if 0 <? b then b <? r else r <? b in
  if greater_than_half || ((r =? b) && (q mod 2 =? 1)) then q + 1 else q.

(** [td / n] for an integer [n] *)
Definition td_div (td n : Z) : Z := divide_and_round td n.

(** [dt.toordinal()]: days since 0001-01-01, which is day 1. *)
Definition toordinal (dt : Z) : Z := dt / DAY + 1.

Definition DAYS_IN_MONTH : list Z :=
  [-1; 31; 28; 31; 30; 31; 30; 31; 31; 30; 31; 30; 31].
Definition DAYS_BEFORE_MONTH : list Z :=
  [-1; 0; 31; 59; 90; 120; 151; 181; 212; 243; 273; 304; 334].

(** [_ord2ymd(n)]: ordinal to (year, month, day) in the proleptic
    Gregorian calendar. *)
Definition ord2ymd (n : Z) : Z * Z * Z :=
  let n := n - 1 in
  let n400 := n / 146097 in
  let n := n mod 146097 in
  let year := n400 * 400 + 1 in
  let n100 := n / 36524 in
  let n := n mod 36524 in
  let n4 := n / 1461 in
  let n := n mod 1461 in
  let n1 := n / 365 in
  let n := n mod 365 in
  let year := year + n100 * 100 + n4 * 4 + n1 in
  if (n1 =? 4) || (n100 =? 4) then (year - 1, 12, 31)
  else
    let leapyear := (n1 =? 3) && (negb (n4 =? 24) || (n100 =? 3)) in
    let month := Z.shiftr (n + 50) 5 in
    let preceding :=
      nth (Z.to_nat month) DAYS_BEFORE_MONTH 0
      + (if (2 <? month) && leapyear then 1 else 0) in
    if n <? preceding then
      let month := month - 1 in
      let preceding :=
        preceding - (nth (Z.to_nat month) DAYS_IN_MONTH 0
                     + (if (month =? 2) && leapyear then 1 else 0)) in
      (year, month, n - preceding + 1)
    else (year, month, n - preceding + 1).

(** [dt.day]: the day of the month. *)
Definition day (dt : Z) : Z := snd (ord2ymd (toordinal dt)).

(** [dt.hour] *)
Definition hour (dt : Z) : Z := (dt mod DAY) / HOUR.

(** [dt.replace(hour=h, minute=0, second=0, microsecond=0)] *)
Definition replace_hour (dt h : Z) : Z := (dt / DAY) * DAY + h * HOUR.

(** [datetime(y, m, d, hh, mm)] from its ordinal, for the examples. *)
Definition at_ordinal (ordinal hh mm : Z) : Z :=
  (ordinal - 1) * DAY + hh * HOUR + mm * MINUTE.

(** [datetime.min] is 0001-01-01T00:00:00 and [datetime.max] is
    9999-12-31T23:59:59.999999, the last microsecond of ordinal 3652059. *)
Definition datetime_min : Z := 0.
Definition datetime_max : Z := 3652059 * DAY - 1.

End DateTime.

Import DateTime.

(** ** [src/solar.py] *)

Module Solar.

Record SolarPosition : Type := mkSolarPosition {
  altitude : Q;
  azimuth : Q;
  time : Z
}.

Record SolarCalculator : Type := mkSolarCalculator {
  latitude : Q;
  longitude : Q;
  elevation : Q
}.

Section WithProvider.

(** The position provider: latitude, longitude, elevation and instant to
    (altitude, azimuth) in degrees. *)
Variable provider : Q -> Q -> Q -> Z -> Q * Q.

(** [get_solar_position(dt)] *)
Definition get_solar_position (self : SolarCalculator) (dt : Z)
    : SolarPosition :=
  let altaz := provider (latitude self) (longitude self) (elevation self) dt in
  mkSolarPosition (fst altaz) (snd altaz) dt.

(** [_binary_search_horizon_crossing(time_before, time_after,
    tolerance_seconds)]: the [while] loop. *)
Fixpoint binary_search_horizon_loop (fuel : nat) (self : SolarCalculator)
    (time_before time_after tolerance_seconds : Z) : result Z :=
  match fuel with
  | O => OutOfFuel
  | S fuel' =>
      if total_seconds_gt (time_after - time_before) tolerance_seconds then
        let mid_time := (time_before + td_div (time_after - time_before) 2)%Z in
        let altitude := altitude (get_solar_position self mid_time) in
        if Qlt_bool 0 altitude then
          binary_search_horizon_loop fuel' self mid_time time_after
                                     tolerance_seconds
        else
          binary_search_horizon_loop fuel' self time_before mid_time
                                     tolerance_seconds
      else Ok time_after
  end.

(** Fuel of a bisection: the bracket halves at every turn. *)
Definition bisection_fuel (time_before time_after : Z) : nat :=
  S (Z.to_nat (Z.log2_up (time_after - time_before))).

Definition _binary_search_horizon_crossing (self : SolarCalculator)
    (time_before time_after tolerance_seconds : Z) : result Z :=
  binary_search_horizon_loop (bisection_fuel time_before time_after) self
                             time_before time_after tolerance_seconds.

(** [find_sunset_time(dt, step_minutes)]: the [while] loop, entered with
    [current_time] and [prev_altitude]. *)
Fixpoint find_sunset_loop (fuel : nat) (self : SolarCalculator)
    (dt step_minutes current_time : Z) (prev_altitude : Q)
    : result (option Z) :=
  match fuel with
  | O => OutOfFuel
  | S fuel' =>
      if (day current_time =? day dt)%Z then
        let current_time := (current_time + minutes step_minutes)%Z in
        let current_altitude := altitude (get_solar_position self current_time) in
        if Qlt_bool 0 prev_altitude && Qle_bool current_altitude 0 then
          t <- _binary_search_horizon_crossing self
                 (current_time - minutes step_minutes)%Z current_time 1 ;;
          Ok (Some t)
        else if (23 <=? hour current_time)%Z then Ok None
        else find_sunset_loop fuel' self dt step_minutes current_time
                              current_altitude
      else Ok None
  end.

Definition find_sunset_time (self : SolarCalculator) (dt step_minutes : Z)
    : result (option Z) :=
  let search_start := replace_hour dt 12 in
  let current_time := search_start in
  let prev_altitude := altitude (get_solar_position self current_time) in
  find_sunset_loop 1441 self dt step_minutes current_time prev_altitude.

(** [_binary_search_altitude_crossing(time_before, time_after,
    target_altitude, tolerance_seconds)]: the [while] loop. *)
Fixpoint binary_search_altitude_loop (fuel : nat) (self : SolarCalculator)
    (time_before time_after : Z) (target_altitude : Q)
    (tolerance_seconds : Z) : result Z :=
  match fuel with
  | O => OutOfFuel
  | S fuel' =>
      if total_seconds_gt (time_after - time_before) tolerance_seconds then
        let mid_time := (time_before + td_div (time_after - time_before) 2)%Z in
        let altitude := altitude (get_solar_position self mid_time) in
        if Qlt_bool target_altitude altitude then
          binary_search_altitude_loop fuel' self mid_time time_after
                                      target_altitude tolerance_seconds
        else
          binary_search_altitude_loop fuel' self time_before mid_time
                                      target_altitude tolerance_seconds
      else Ok time_after
  end.

Definition _binary_search_altitude_crossing (self : SolarCalculator)
    (time_before time_after : Z) (target_altitude : Q)
    (tolerance_seconds : Z) : result Z :=
  binary_search_altitude_loop (bisection_fuel time_before time_after) self
    time_before time_after target_altitude tolerance_seconds.

(** [_find_altitude_crossing(dt, target_altitude, search_forward)]: the
    [while True] loop, entered with [current_time] and [prev_diff]. *)
Fixpoint find_altitude_loop (fuel : nat) (self : SolarCalculator)
    (dt : Z) (target_altitude : Q) (step current_time : Z) (prev_diff : Q)
    : result (option Z) :=
  match fuel with
  | O => OutOfFuel
  | S fuel' =>
      let current_time := (current_time + hours step)%Z in
      let current_altitude := altitude (get_solar_position self current_time) in
      let current_diff := current_altitude - target_altitude in
      if Qle_bool (prev_diff * current_diff) 0 then
        t <- _binary_search_altitude_crossing self
               (current_time - hours step)%Z current_time target_altitude 1 ;;
        Ok (Some t)
      else if (1 <? Z.abs (td_days (current_time - dt)))%Z then Ok None
      else find_altitude_loop fuel' self dt target_altitude step current_time
                              current_diff
  end.

Definition _find_altitude_crossing (self : SolarCalculator) (dt : Z)
    (target_altitude : Q) (search_forward : bool) : result (option Z) :=
  let step := if search_forward then 1%Z else (-1)%Z in
  let current_time := replace_hour dt 12 in
  let prev_altitude := altitude (get_solar_position self current_time) in
  let prev_diff := prev_altitude - target_altitude in
  find_altitude_loop 100 self dt target_altitude step current_time prev_diff.

Record CivilTwilight : Type := mkCivilTwilight {
  civil_dusk : option Z;
  civil_dawn : option Z
}.

(** [get_civil_twilight_times(dt)] *)
Definition get_civil_twilight_times (self : SolarCalculator) (dt : Z)
    : result CivilTwilight :=
  dusk <- _find_altitude_crossing self dt (-6) true ;;
  dawn <- _find_altitude_crossing self (dt - days 1)%Z (-6) false ;;
  Ok (mkCivilTwilight dusk dawn).

End WithProvider.

End Solar.

Import Solar.

(** ** [src/main.py] *)

Module Main.

Record Prediction : Type := mkPrediction {
  location : Q * Q * Q;
  date : Z;
  has_sunlight : bool;
  first_direct_sunlight : option Z;
  sun_altitude_at_rise : option Q;
  sun_azimuth_at_rise : option Q;
  last_direct_sunlight : option Z;
  sun_altitude_at_loss : option Q;
  sun_azimuth_at_loss : option Q;
  terrain_obstruction : bool
}.

Section WithProvider.

Variable provider : Q -> Q -> Q -> Z -> Q * Q.

(** The sampling loop of [predict_sunlight_loss]:
    [while current_time < end_time]. *)
Fixpoint sample_loop (fuel : nat) (solar_calc : SolarCalculator)
    (terrain : TerrainProfile) (terrain_file : bool)
    (current_time end_time : Z) (solar_positions : list SolarPosition)
    : result (list SolarPosition) :=
  match fuel with
  | O => OutOfFuel
  | S fuel' =>
      if (current_time <? end_time)%Z then
        let pos := get_solar_position provider solar_calc current_time in
        solar_positions <-
          (if terrain_file then
             blocked <- is_sun_blocked terrain (altitude pos) (azimuth pos) ;;
             Ok (if negb blocked then solar_positions ++ [pos]
                 else solar_positions)
           else
             Ok (if Qlt_bool 0 (altitude pos) then solar_positions ++ [pos]
                 else solar_positions)) ;;
        sample_loop fuel' solar_calc terrain terrain_file
                    (current_time + minutes 1)%Z end_time solar_positions
      else Ok solar_positions
  end.

(** [predict_sunlight_loss(latitude, longitude, elevation, date,
    terrain_file, timezone)].  [terrain_file] is the parsed content of the
    named file, [None] when no file is named; the time zone is only echoed
    and is left out. *)
Definition predict_sunlight_loss (latitude longitude elevation : Q)
    (date : Z) (terrain_file : option TerrainFile) : result Prediction :=
  let solar_calc := mkSolarCalculator latitude longitude elevation in
  let terrain :=
    match terrain_file with
    | Some data => load_from_file init data
    | None => init
    end in
  let has_file := match terrain_file with Some _ => true | None => false end in
  let current_time := replace_hour date 0 in
  let end_time := (current_time + hours 24)%Z in
  solar_positions <-
    sample_loop 1441 solar_calc terrain has_file current_time end_time [] ;;
  let first_position := hd_error solar_positions in
  let last_position := hd_error (rev solar_positions) in
  Ok (mkPrediction
        (latitude, longitude, elevation)
        date
        (0 <? length solar_positions)%nat
        (option_map time first_position)
        (option_map altitude first_position)
        (option_map azimuth first_position)
        (option_map time last_position)
        (option_map altitude last_position)
        (option_map azimuth last_position)
        has_file).

(** The length of the reported window, [last - first], as the tests
    compute it from the two reported instants. *)
Definition window_duration (r : Prediction) : option Z :=
  match first_direct_sunlight r, last_direct_sunlight r with
  | Some sunrise, Some sunset => Some (sunset - sunrise)%Z
  | _, _ => None
  end.

End WithProvider.

End Main.

Import Main.
(** ** Scan samples and test inputs *)

(** The [k]-th sample instant of a coarse scan from [start]. *)
Definition scan_time (start step : Z) (k : nat) : Z :=
  (start + Z.of_nat k * step)%Z.

(** The samples of the twilight scan of [_find_altitude_crossing]: the
    instants, the differences [altitude - target], and the condition that
    the scan has gone past the samples [1..k]: none of them closed a bracket
    with [diff_prev * diff_curr <= 0] and none was out of bounds. *)
Definition twilight_time (dt : Z) (search_forward : bool) (k : nat) : Z :=
  scan_time (replace_hour dt 12)
            (hours (if search_forward then 1 else -1))%Z k.

Definition twilight_diff (provider : Q -> Q -> Q -> Z -> Q * Q)
    (self : SolarCalculator) (dt : Z) (target : Q) (search_forward : bool)
    (k : nat) : Q :=
  altitude (get_solar_position provider self (twilight_time dt search_forward k))
  - target.

Definition twilight_scan_passed (provider : Q -> Q -> Q -> Z -> Q * Q)
    (self : SolarCalculator) (dt : Z) (target : Q) (search_forward : bool)
    (k : nat) : Prop :=
  forall j, (j < k)%nat ->
    ~ twilight_diff provider self dt target search_forward j
      * twilight_diff provider self dt target search_forward (S j) <= 0 /\
    ~ (1 < Z.abs (td_days (twilight_time dt search_forward (S j) - dt)))%Z.

(** The samples of the horizon scan of [find_sunset_time]: the instants,
    the altitudes, and the condition that the scan has gone past the
    samples [1..k]: none of them closed a bracket with
    [prev_altitude > 0 and current_altitude <= 0] and none was in the last
    hour of the day. *)
Definition sunset_time (dt step_minutes : Z) (k : nat) : Z :=
  scan_time (replace_hour dt 12) (minutes step_minutes) k.

Definition sunset_altitude (provider : Q -> Q -> Q -> Z -> Q * Q)
    (self : SolarCalculator) (dt step_minutes : Z) (k : nat) : Q :=
  altitude (get_solar_position provider self (sunset_time dt step_minutes k)).

Definition sunset_scan_passed (provider : Q -> Q -> Q -> Z -> Q * Q)
    (self : SolarCalculator) (dt step_minutes : Z) (k : nat) : Prop :=
  forall j, (j < k)%nat ->
    ~ (0 < sunset_altitude provider self dt step_minutes j /\
       sunset_altitude provider self dt step_minutes (S j) <= 0) /\
    ~ (23 <= hour (sunset_time dt step_minutes (S j)))%Z.

(** The test of the sampling loop of [predict_sunlight_loss] on one
    position: whether the position is appended to [solar_positions]. *)
Definition sample_keep (terrain : TerrainProfile) (terrain_file : bool)
    (pos : SolarPosition) : result bool :=
  if terrain_file then
    blocked <- is_sun_blocked terrain (altitude pos) (azimuth pos) ;;
    Ok (negb blocked)
  else Ok (Qlt_bool 0 (altitude pos)).

Definition sample_kept (terrain : TerrainProfile) (terrain_file : bool)
    (pos : SolarPosition) : bool :=
  match sample_keep terrain terrain_file pos with
  | Ok b => b
  | _ => false
  end.

(** The positions of the sun at the first [n] whole minutes from [start]. *)
Definition minute_samples (provider : Q -> Q -> Q -> Z -> Q * Q)
    (solar_calc : SolarCalculator) (start : Z) (n : nat)
    : list SolarPosition :=
  map (fun k => get_solar_position provider solar_calc
                  (start + Z.of_nat k * MINUTE)%Z)
      (seq 0 n).

(** The profile of the unit tests: 0 degrees at north, 20 degrees at east. *)
Definition two_point_profile : TerrainProfile :=
  load_from_dict init [(0, 0); (90, 20)] 0.

(** 2026-02-18T00:00:00, the date of the integration tests. *)
Definition test_date : Z := at_ordinal 739665 0 0.

Definition test_calc : SolarCalculator := mkSolarCalculator 0 0 0.

(** A sun that stays 10 degrees above the horizon all day (polar day). *)
Definition polar_day : Q -> Q -> Q -> Z -> Q * Q :=
  fun _ _ _ _ => (10, 180).

(** A sun that stays 10 degrees below the horizon all day (polar night). *)
Definition polar_night : Q -> Q -> Q -> Z -> Q * Q :=
  fun _ _ _ _ => (-10, 180).

(** A sun in the south that culminates at 12 degrees at 12:00 and moves
    3 degrees per hour: above the horizon from 08:00 to 16:00. *)
Definition low_sun : Q -> Q -> Q -> Z -> Q * Q :=
  fun _ _ _ t =>
    (12 - 3 * (inject_Z (Z.abs (t mod DAY - 12 * HOUR)) / inject_Z HOUR), 180).

(** A terrain file with one sample below the horizontal: the ground falls
    away to 10 degrees below the horizon. *)
Definition valley_file : TerrainFile :=
  mkTerrainFile (Some [(180, -10)]) None.


(** A sun that rises through -6 degrees exactly at 06:30 of the day before
    [test_date], 10 degrees per hour. *)
Definition dawn_rise : Q -> Q -> Q -> Z -> Q * Q :=
  fun _ _ _ t =>
    (-6 + 10 * (inject_Z (t - at_ordinal 739664 6 30) / inject_Z HOUR), 90).

(** A sun that sets through the horizon at 12:00:30 of [test_date],
    15 degrees per hour. *)
Definition early_set : Q -> Q -> Q -> Z -> Q * Q :=
  fun _ _ _ t =>
    (15 * (inject_Z (at_ordinal 739665 12 0 + 30 * SECOND - t)
           / inject_Z HOUR), 270).

(** The terrain given to the Composer is usable when no file is named, or
    the named file loads to a non-empty profile with normalised azimuths. *)
Definition usable_terrain (terrain_file : option TerrainFile) : Prop :=
  match terrain_file with
  | None => True
  | Some data =>
      elevations (load_from_file init data) <> [] /\
      normalized (load_from_file init data)
  end.

(** The positions that the Composer keeps for a day. *)
Definition kept_positions (provider : Q -> Q -> Q -> Z -> Q * Q)
    (latitude longitude elevation : Q) (date : Z)
    (terrain_file : option TerrainFile) : list SolarPosition :=
  filter
    (sample_kept
       (match terrain_file with
        | Some data => load_from_file init data
        | None => init
        end)
       (match terrain_file with Some _ => true | None => false end))
    (minute_samples provider
       (mkSolarCalculator latitude longitude elevation)
       (replace_hour date 0) 1440).

(** ** Further code: building profiles, the last unobstructed position *)

(** A profile built from the empty one by calls of [add_elevation_point],
    in the order of the list. *)
Definition add_elevation_points (self : TerrainProfile)
    (points : list (Q * Q)) : TerrainProfile :=
  fold_left (fun p point => add_elevation_point p (fst point) (snd point))
            points self.

(** The keys of a [dict] are pairwise different numbers. *)
Definition distinct_keys (d : dict) : Prop := NoDupA Qeq (dict_keys d).

Module TerrainSunset.

(** [find_unobstructed_sunset(solar_positions)]: the [for] loop, entered
    with [last_unobstructed]. *)
Fixpoint find_unobstructed_loop (self : TerrainProfile)
    (solar_positions : list SolarPosition)
    (last_unobstructed : option SolarPosition)
    : result (option SolarPosition) :=
  match solar_positions with
  | [] => Ok last_unobstructed
  | position :: rest =>
      blocked <- is_sun_blocked self (altitude position) (azimuth position) ;;
      find_unobstructed_loop self rest
        (if negb blocked then Some position else last_unobstructed)
  end.

Definition find_unobstructed_sunset (self : TerrainProfile)
    (solar_positions : list SolarPosition) : result (option SolarPosition) :=
  find_unobstructed_loop self solar_positions None.

End TerrainSunset.

Import TerrainSunset.

(** ** The range of [datetime]

    The sweep of [predict_sunlight_loss] computes
    [current_time + timedelta(hours=24)] from the midnight of [date]: it
    stays inside the range of [datetime] when [date] is a datetime whose
    day is not 9999-12-31. *)
Definition sweep_in_range (date : Z) : Prop :=
  (datetime_min <= date /\ replace_hour date 0 + hours 24 <= datetime_max)%Z.

(** The hourly scan of [_find_altitude_crossing] takes at most 61 steps
    from 12:00 of the day of [dt], forward or backward: it stays inside the
    range of [datetime] when 61 hours either way do. *)
Definition scan_in_range (dt : Z) : Prop :=
  (datetime_min <= replace_hour dt 12 - hours 61 /\
   replace_hour dt 12 + hours 61 <= datetime_max)%Z.

(** ** [src/terrain.py] on IEEE binary64 floats

    The lookup of [src/terrain.py] once more, on Python's own [float]:
    every [+], [-], [*], [/], [<], [<=] and [==] is the binary64 operation
    of the kernel's primitive floats.  NaN keys are outside the model. *)

Module Binary64.

Import PrimFloat SpecFloat FloatOps.
Local Open Scope float_scope.

(** C's [fmod(x, y)]: the remainder of [|x|] by [|y|] with the sign of
    [x], which is computed without rounding. *)
Definition fmod (x y : float) : float :=
  match Prim2SF x, Prim2SF y with
  | S754_finite sx mx ex, S754_finite _ my ey =>
      let e := Z.min ex ey in
      let r := ((Zpos mx * 2 ^ (ex - e)) mod (Zpos my * 2 ^ (ey - e)))%Z in
      SF2Prim (binary_normalize prec emax (if sx then (- r)%Z else r) e sx)
  | S754_zero _, S754_finite _ _ _ => x
  | S754_zero _, S754_infinity _ => x
  | S754_finite _ _ _, S754_infinity _ => x
  | _, _ => nan
  end.

(** [vx % wx] on floats, for [wx] other than zero (CPython's [float_rem]):
    [fmod], moved by [wx] when its sign differs from the sign of [wx];
    that addition rounds. *)
Definition float_mod (vx wx : float) : float :=
  let m := fmod vx wx in
  if negb (m =? 0) then
    if xorb (wx <? 0) (m <? 0) then m + wx else m
  else if get_sign wx then neg_zero else zero.

(** [x / y] on floats. *)
Definition float_div (x y : float) : result float :=
  if y =? 0 then Raise ZeroDivisionError else Ok (x / y).

(** A [dict] with float keys, in insertion order. *)
Definition dict : Type := list (float * float).

Fixpoint dict_find (d : dict) (k : float) : option float :=
  match d with
  | [] => None
  | (k', v) :: d' => if k' =? k then Some v else dict_find d' k
  end.

(** [k in d] *)
Definition dict_contains (d : dict) (k : float) : bool :=
  match dict_find d k with Some _ => true | None => false end.

(** [d[k]] *)
Definition dict_getitem (d : dict) (k : float) : result float :=
  match dict_find d k with Some v => Ok v | None => Raise KeyError end.

(** [d[k] = v] *)
Fixpoint dict_setitem (d : dict) (k v : float) : dict :=
  match d with
  | [] => [(k, v)]
  | (k', v') :: d' =>
      if k' =? k then (k', v) :: d' else (k', v') :: dict_setitem d' k v
  end.

(** [d.keys()] *)
Definition dict_keys (d : dict) : list float := map fst d.

(** [sorted(l)] *)
Fixpoint insert_sorted (x : float) (l : list float) : list float :=
  match l with
  | [] => [x]
  | y :: l' => if x <? y then x :: y :: l' else y :: insert_sorted x l'
  end.

Definition sorted (l : list float) : list float :=
  fold_left (fun acc x => insert_sorted x acc) l [].

Record TerrainProfile : Type := mkTerrainProfile {
  elevations : dict;
  reference_elevation : float
}.

(** [TerrainProfile()] *)
Definition init : TerrainProfile := mkTerrainProfile [] 0.

(** [add_elevation_point(azimuth, elevation_angle)] *)
Definition add_elevation_point (self : TerrainProfile)
    (azimuth elevation_angle : float) : TerrainProfile :=
  let azimuth := float_mod azimuth 360 in
  mkTerrainProfile (dict_setitem (elevations self) azimuth elevation_angle)
                   (reference_elevation self).

(** [load_from_dict(data, reference_elevation)] *)
Definition load_from_dict (self : TerrainProfile)
    (data : list (float * float)) (reference_elevation : float)
    : TerrainProfile :=
  mkTerrainProfile
    (fold_left (fun d kv => dict_setitem d (fst kv) (snd kv)) data [])
    reference_elevation.

Fixpoint first_greater (azimuths : list float) (azimuth : float) (i : nat)
    : option nat :=
  match azimuths with
  | [] => None
  | az :: rest =>
      if azimuth <? az then Some i
      else first_greater rest azimuth (S i)
  end.

(** [get_obstruction_angle(azimuth)] *)
Definition get_obstruction_angle (self : TerrainProfile) (azimuth : float)
    : result float :=
  let azimuth := float_mod azimuth 360 in
  if dict_contains (elevations self) azimuth then
    dict_getitem (elevations self) azimuth
  else
    let azimuths := sorted (dict_keys (elevations self)) in
    match first_greater azimuths azimuth 0 with
    | None =>
        az1 <- list_index azimuths (-1) ;;
        az2 <- list_index azimuths 0 ;;
        el1 <- dict_getitem (elevations self) az1 ;;
        el2 <- dict_getitem (elevations self) az2 ;;
        frac <- float_div (azimuth - az1) (360 + az2 - az1) ;;
        Ok (el1 + frac * (el2 - el1))
    | Some O =>
        az0 <- list_index azimuths 0 ;;
        dict_getitem (elevations self) az0
    | Some idx =>
        az1 <- list_index azimuths (Z.of_nat idx - 1) ;;
        az2 <- list_index azimuths (Z.of_nat idx) ;;
        el1 <- dict_getitem (elevations self) az1 ;;
        el2 <- dict_getitem (elevations self) az2 ;;
        frac <- float_div (azimuth - az1) (az2 - az1) ;;
        Ok (el1 + frac * (el2 - el1))
    end.

(** [is_sun_blocked(sun_altitude, sun_azimuth)] *)
Definition is_sun_blocked (self : TerrainProfile)
    (sun_altitude sun_azimuth : float) : result bool :=
  obstruction_angle <- get_obstruction_angle self sun_azimuth ;;
  Ok (sun_altitude <=? obstruction_angle).

End Binary64.

(** * Properties *)

(** ** The unit tests of the repository, and the calendar *)

Example test_get_exact_azimuth :
  let terrain := load_from_dict init [(0, 5); (90, 20); (180, 10)] 0 in
  get_obstruction_angle terrain 0 = Ok 5 /\
  get_obstruction_angle terrain 90 = Ok 20 /\
  get_obstruction_angle terrain 180 = Ok 10.
Proof. repeat split. Qed.

Example test_get_interpolated_azimuth :
  exists angle_at_45,
    get_obstruction_angle two_point_profile 45 = Ok angle_at_45 /\
    angle_at_45 == 10.
Proof. eexists. split; [vm_compute; reflexivity|reflexivity]. Qed.

Example test_azimuth_normalization :
  get_obstruction_angle (add_elevation_point init 45 10) 405 = Ok 10.
Proof. vm_compute. reflexivity. Qed.

Example test_is_sun_blocked :
  let terrain := load_from_dict init [(0, 10)] 0 in
  is_sun_blocked terrain 15 0 = Ok false /\
  is_sun_blocked terrain 5 0 = Ok true /\
  is_sun_blocked terrain 10 0 = Ok true.
Proof. repeat split. Qed.

Example test_ord2ymd :
  ord2ymd 739665 = (2026, 2, 18)%Z /\ ord2ymd 738945 = (2024, 2, 29)%Z /\
  ord2ymd 730485 = (2000, 12, 31)%Z /\ ord2ymd 766704 = (2100, 3, 1)%Z /\
  ord2ymd 1 = (1, 1, 1)%Z /\ day test_date = 18%Z /\
  hour (at_ordinal 739665 23 59) = 23%Z.
Proof. repeat split. Qed.

Example test_divide_and_round :
  map (fun a => divide_and_round a 2) [1; 2; 3; 4; 5; 6; 7; -1; -3]%Z
  = [0; 1; 2; 2; 2; 3; 4; 0; -2]%Z.
Proof. reflexivity. Qed.

(** ** Floats *)

Lemma Qlt_bool_iff (x y : Q) : Qlt_bool x y = true <-> x < y.
Proof.
  unfold Qlt_bool. rewrite negb_true_iff.
  split; intro H.
  - apply Qnot_le_lt. intro Hle. apply Qle_bool_iff in Hle. congruence.
  - destruct (Qle_bool y x) eqn:E; [|reflexivity].
    apply Qle_bool_iff in E. exfalso. apply (Qlt_not_le _ _ H E).
Qed.

Lemma Qlt_bool_false (x y : Q) : Qlt_bool x y = false <-> y <= x.
Proof.
  unfold Qlt_bool. rewrite negb_false_iff. apply Qle_bool_iff.
Qed.

#[local] Instance Qlt_bool_comp : Proper (Qeq ==> Qeq ==> eq) Qlt_bool.
Proof.
  intros x x' Hx y y' Hy. unfold Qlt_bool. now rewrite Hx, Hy.
Qed.

Lemma Qfloor_unit (y : Q) : 0 <= y -> y < 1 -> Qfloor y = 0%Z.
Proof.
  intros H0 H1.
  pose proof (Qfloor_le y) as Hl. pose proof (Qlt_floor y) as Hu.
  assert (Hlt : (Qfloor y < 1)%Z).
  { rewrite Zlt_Qlt. eapply Qle_lt_trans; [exact Hl|exact H1]. }
  assert (Hgt : (0 < Qfloor y + 1)%Z).
  { rewrite Zlt_Qlt. eapply Qle_lt_trans; [exact H0|exact Hu]. }
  lia.
Qed.

Lemma float_mod_range (x m : Q) :
  0 < m -> 0 <= float_mod x m /\ float_mod x m < m.
Proof.
  intro Hm. unfold float_mod.
  pose proof (Qfloor_le (x / m)) as Hl.
  pose proof (Qlt_floor (x / m)) as Hu.
  rewrite inject_Z_plus in Hu.
  set (f := inject_Z (Qfloor (x / m))) in *.
  assert (Hx : x == m * (x / m)) by (field; lra).
  split.
  - assert (m * f <= m * (x / m)) by (apply Qmult_le_l; assumption).
    lra.
  - assert (m * (x / m) < m * (f + inject_Z 1)) by (apply Qmult_lt_l; assumption).
    change (inject_Z 1) with 1 in *. lra.
Qed.

Lemma float_mod_small (x m : Q) :
  0 <= x -> x < m -> float_mod x m == x.
Proof.
  intros H0 Hm. unfold float_mod.
  assert (Hpos : 0 < m) by lra.
  rewrite (Qfloor_unit (x / m)).
  - change (inject_Z 0) with 0. ring.
  - apply Qle_shift_div_l; lra.
  - apply Qlt_shift_div_r; lra.
Qed.

Lemma float_mod_idem (x m : Q) :
  0 < m -> float_mod (float_mod x m) m == float_mod x m.
Proof.
  intro Hm. destruct (float_mod_range x m Hm).
  now apply float_mod_small.
Qed.

(** ** Dictionaries, sorting and indexing *)

Lemma dict_find_compat (d : dict) (k k' : Q) :
  k == k' -> dict_find d k = dict_find d k'.
Proof.
  intro Hk. induction d as [|[a v] d IH]; simpl; [reflexivity|].
  rewrite IH. now rewrite Hk.
Qed.

Lemma dict_find_key (d : dict) (k : Q) :
  In k (dict_keys d) -> exists v, dict_find d k = Some v.
Proof.
  induction d as [|[a v] d IH]; simpl; [tauto|].
  intros [->|Hin].
  - rewrite Qeq_bool_refl. now exists v.
  - destruct (Qeq_bool a k); [now exists v|auto].
Qed.

Lemma dict_find_None (d : dict) (k : Q) :
  dict_find d k = None <-> forall a, In a (dict_keys d) -> ~ a == k.
Proof.
  induction d as [|[a v] d IH]; simpl.
  - split; [tauto|reflexivity].
  - destruct (Qeq_bool a k) eqn:E.
    + split; [discriminate|].
      intro H. exfalso. apply (H a); [now left|]. now apply Qeq_bool_iff.
    + rewrite IH. split.
      * intros H b [<-|Hb]; [now apply Qeq_bool_neq|auto].
      * intros H b Hb. apply H. now right.
Qed.

Lemma dict_find_Some (d : dict) (k v : Q) :
  dict_find d k = Some v -> exists a, In a (dict_keys d) /\ a == k.
Proof.
  induction d as [|[a w] d IH]; simpl; [discriminate|].
  destruct (Qeq_bool a k) eqn:E.
  - intros _. exists a. split; [now left|]. now apply Qeq_bool_iff.
  - intro H. destruct (IH H) as (b & Hb & Hbk). exists b. split; [now right|easy].
Qed.

Lemma dict_contains_false (d : dict) (k : Q) :
  dict_contains d k = false <-> forall a, In a (dict_keys d) -> ~ a == k.
Proof.
  unfold dict_contains. rewrite <- dict_find_None.
  destruct (dict_find d k); split; congruence.
Qed.

Lemma dict_keys_setitem (d : dict) (k v a : Q) :
  In a (dict_keys (dict_setitem d k v)) -> a = k \/ In a (dict_keys d).
Proof.
  induction d as [|[b w] d IH]; simpl.
  - intros [<-|[]]. now left.
  - destruct (Qeq_bool b k); simpl.
    + intros [<-|H]; right; [now left|now right].
    + intros [<-|H]; [right; now left|].
      destruct (IH H); [now left|right; now right].
Qed.

Lemma insert_sorted_In (x a : Q) (l : list Q) :
  In a (insert_sorted x l) <-> a = x \/ In a l.
Proof.
  induction l as [|y l IH]; simpl.
  - intuition.
  - destruct (Qlt_bool x y); simpl; [intuition|]. rewrite IH. intuition.
Qed.

Lemma insert_sorted_length (x : Q) (l : list Q) :
  length (insert_sorted x l) = S (length l).
Proof.
  induction l as [|y l IH]; simpl; [reflexivity|].
  destruct (Qlt_bool x y); simpl; [reflexivity|now rewrite IH].
Qed.

Lemma insert_sorted_sorted (x : Q) (l : list Q) :
  StronglySorted Qle l -> StronglySorted Qle (insert_sorted x l).
Proof.
  induction 1 as [|y l Hs IH Hall]; simpl.
  - constructor; constructor.
  - destruct (Qlt_bool x y) eqn:E.
    + apply Qlt_bool_iff in E. constructor; [now constructor|].
      constructor; [now apply Qlt_le_weak|].
      rewrite Forall_forall in *. intros z Hz.
      apply Qle_trans with y; [now apply Qlt_le_weak|auto].
    + apply Qlt_bool_false in E. constructor; [assumption|].
      rewrite Forall_forall in *. intros z Hz.
      apply insert_sorted_In in Hz. destruct Hz as [->|Hz]; auto.
Qed.

Lemma insert_sorted_perm (x : Q) (l : list Q) :
  Permutation (x :: l) (insert_sorted x l).
Proof.
  induction l as [|y l IH]; simpl; [reflexivity|].
  destruct (Qlt_bool x y); [reflexivity|].
  rewrite perm_swap. now constructor.
Qed.

Lemma sorted_fold_spec (l acc : list Q) :
  StronglySorted Qle acc ->
  let r := fold_left (fun acc x => insert_sorted x acc) l acc in
  StronglySorted Qle r /\ Permutation (l ++ acc) r.
Proof.
  revert acc. induction l as [|x l IH]; intros acc Hacc; simpl.
  - split; [assumption|reflexivity].
  - destruct (IH (insert_sorted x acc) (insert_sorted_sorted x acc Hacc))
      as [Hs Hp].
    split; [exact Hs|].
    etransitivity; [|exact Hp].
    rewrite <- insert_sorted_perm. apply Permutation_middle.
Qed.

(** [sorted] returns its argument in ascending order. *)
Lemma sorted_spec (l : list Q) :
  StronglySorted Qle (sorted l) /\ Permutation l (sorted l).
Proof.
  destruct (sorted_fold_spec l [] (SSorted_nil _)) as [Hs Hp].
  split; [exact Hs|]. now rewrite app_nil_r in Hp.
Qed.

Lemma sorted_In (l : list Q) (a : Q) : In a (sorted l) <-> In a l.
Proof.
  destruct (sorted_spec l) as [_ Hp]. split; intro H.
  - eapply Permutation_in; [symmetry; exact Hp|exact H].
  - eapply Permutation_in; [exact Hp|exact H].
Qed.

Lemma sorted_length (l : list Q) : length (sorted l) = length l.
Proof.
  destruct (sorted_spec l) as [_ Hp]. symmetry. now apply Permutation_length.
Qed.

Lemma sorted_nil_inv (l : list Q) : sorted l = [] -> l = [].
Proof.
  intro H. apply length_zero_iff_nil. rewrite <- sorted_length, H. reflexivity.
Qed.

Lemma list_index_app {A : Type} (pre post : list A) (x : A) :
  list_index (pre ++ x :: post) (Z.of_nat (length pre)) = Ok x.
Proof.
  unfold list_index. rewrite length_app. simpl length.
  destruct (Z.ltb_spec (Z.of_nat (length pre)) 0); [lia|].
  destruct (Z.ltb_spec (Z.of_nat (length pre)) 0); [lia|].
  destruct (Z.leb_spec (Z.of_nat (length pre + S (length post)))
                       (Z.of_nat (length pre))); [lia|].
  simpl. rewrite Nat2Z.id. rewrite nth_error_app2 by lia.
  now rewrite Nat.sub_diag.
Qed.

Lemma list_index_head {A : Type} (x : A) (l : list A) :
  list_index (x :: l) 0 = Ok x.
Proof. apply (list_index_app [] l x). Qed.

Lemma list_index_last {A : Type} (pre : list A) (x : A) :
  list_index (pre ++ [x]) (-1) = Ok x.
Proof.
  unfold list_index. rewrite length_app. simpl length.
  change (-1 <? 0)%Z with true. cbv iota.
  replace (-1 + Z.of_nat (length pre + 1))%Z with (Z.of_nat (length pre)) by lia.
  destruct (Z.ltb_spec (Z.of_nat (length pre)) 0); [lia|].
  destruct (Z.leb_spec (Z.of_nat (length pre + 1))
                       (Z.of_nat (length pre))); [lia|].
  simpl. rewrite Nat2Z.id. rewrite nth_error_app2 by lia.
  now rewrite Nat.sub_diag.
Qed.

Lemma list_index_In {A : Type} (l : list A) (i : Z) (x : A) :
  list_index l i = Ok x -> In x l.
Proof.
  unfold list_index.
  destruct (_ || _); [discriminate|].
  destruct (nth_error l _) eqn:E; [|discriminate].
  intros [= <-]. eapply nth_error_In; eassumption.
Qed.

(** The scan for the first azimuth above the query. *)
Lemma first_greater_app (pre post : list Q) (az q : Q) (i : nat) :
  Forall (fun a => a <= q) pre -> q < az ->
  first_greater (pre ++ az :: post) q i = Some (i + length pre)%nat.
Proof.
  revert i. induction pre as [|a pre IH]; intros i Hall Hlt; simpl.
  - apply Qlt_bool_iff in Hlt. rewrite Hlt. f_equal. lia.
  - inversion Hall as [|? ? Ha Hpre]; subst.
    apply Qlt_bool_false in Ha. rewrite Ha.
    rewrite IH by assumption. f_equal. lia.
Qed.

Lemma first_greater_None (l : list Q) (q : Q) (i : nat) :
  first_greater l q i = None <-> Forall (fun a => a <= q) l.
Proof.
  revert i. induction l as [|a l IH]; intro i; simpl.
  - split; [constructor|reflexivity].
  - destruct (Qlt_bool q a) eqn:E.
    + split; [discriminate|]. intro H. inversion H; subst.
      apply Qlt_bool_iff in E. exfalso. eapply Qlt_not_le; eassumption.
    + apply Qlt_bool_false in E. rewrite IH. split.
      * now constructor.
      * intro H. now inversion H.
Qed.

Lemma first_greater_Some (l : list Q) (q : Q) (i j : nat) :
  first_greater l q i = Some j ->
  exists pre az post,
    l = pre ++ az :: post /\ j = (i + length pre)%nat /\
    Forall (fun a => a <= q) pre /\ q < az.
Proof.
  revert i. induction l as [|a l IH]; intro i; simpl; [discriminate|].
  destruct (Qlt_bool q a) eqn:E.
  - intros [= <-]. apply Qlt_bool_iff in E.
    exists [], a, l. repeat split; [simpl; lia|constructor|assumption].
  - intro H. destruct (IH _ H) as (pre & az & post & -> & -> & Hall & Hlt).
    apply Qlt_bool_false in E.
    exists (a :: pre), az, post. repeat split; simpl; [lia|now constructor|assumption].
Qed.

(** ** The terrain lookup *)

Lemma sorted_split (pre post : list Q) (x : Q) :
  StronglySorted Qle (pre ++ x :: post) ->
  Forall (fun a => a <= x) pre /\ Forall (fun a => x <= a) post.
Proof.
  induction pre as [|a pre IH]; simpl; intro H.
  - inversion H; subst. split; [constructor|assumption].
  - inversion H as [|? ? Hs Hall]; subst.
    destruct (IH Hs) as [Hpre Hpost]. split; [|assumption].
    constructor; [|assumption].
    rewrite Forall_forall in Hall. apply Hall.
    apply in_or_app. right. now left.
Qed.

Lemma float_div_nonzero (x y : Q) : ~ y == 0 -> float_div x y = Ok (x / y).
Proof.
  intro H. unfold float_div.
  destruct (Qeq_bool y 0) eqn:E; [|reflexivity].
  apply Qeq_bool_iff in E. contradiction.
Qed.

Lemma dict_getitem_find (d : dict) (k v : Q) :
  dict_find d k = Some v -> dict_getitem d k = Ok v.
Proof. unfold dict_getitem. now intros ->. Qed.

Lemma sorted_keys_find (self : TerrainProfile) (a : Q) :
  In a (sorted (dict_keys (elevations self))) ->
  exists v, dict_find (elevations self) a = Some v.
Proof. intro H. apply dict_find_key. now apply sorted_In. Qed.

(** An exact hit: the normalised query is a stored azimuth. *)
Lemma get_obstruction_angle_hit (self : TerrainProfile) (q v : Q) :
  dict_find (elevations self) (float_mod q 360) = Some v ->
  get_obstruction_angle self q = Ok v.
Proof.
  intro H. unfold get_obstruction_angle, dict_contains, dict_getitem.
  now rewrite H.
Qed.

Lemma get_obstruction_angle_stored (self : TerrainProfile) (A V : Q) :
  normalized self ->
  dict_find (elevations self) A = Some V ->
  get_obstruction_angle self A = Ok V.
Proof.
  intros Hn H. apply get_obstruction_angle_hit.
  destruct (dict_find_Some _ _ _ H) as (a & Ha & Heq).
  destruct (Hn a Ha) as [H0 H360].
  rewrite <- H. apply dict_find_compat. apply float_mod_small; lra.
Qed.

(** A query strictly between two neighbours of the sorted azimuths. *)
Lemma get_obstruction_angle_between (self : TerrainProfile)
    (q az1 az2 : Q) (pre post : list Q) :
  sorted (dict_keys (elevations self)) = pre ++ az1 :: az2 :: post ->
  az1 < float_mod q 360 -> float_mod q 360 < az2 ->
  exists el1 el2,
    dict_find (elevations self) az1 = Some el1 /\
    dict_find (elevations self) az2 = Some el2 /\
    get_obstruction_angle self q
    = Ok (el1 + (float_mod q 360 - az1) / (az2 - az1) * (el2 - el1)).
Proof.
  intros HL H1 H2.
  destruct (sorted_spec (dict_keys (elevations self))) as [Hs _].
  rewrite HL in Hs.
  destruct (sorted_split _ _ _ Hs) as [Hpre _].
  assert (Hs' : StronglySorted Qle ((pre ++ [az1]) ++ az2 :: post))
    by (now rewrite <- app_assoc).
  destruct (sorted_split _ _ _ Hs') as [_ Hpost].
  destruct (sorted_keys_find self az1) as [el1 He1].
  { rewrite HL. apply in_or_app. right. now left. }
  destruct (sorted_keys_find self az2) as [el2 He2].
  { rewrite HL. apply in_or_app. right. right. now left. }
  exists el1, el2. split; [assumption|]. split; [assumption|].
  unfold get_obstruction_angle.
  set (q' := float_mod q 360) in *.
  assert (Hc : dict_contains (elevations self) q' = false).
  { apply dict_contains_false. intros a Ha Heq.
    apply sorted_In in Ha. rewrite HL in Ha.
    rewrite Forall_forall in Hpre, Hpost.
    apply in_app_or in Ha. destruct Ha as [Ha|[<-|[<-|Ha]]].
    - specialize (Hpre a Ha). lra.
    - lra.
    - lra.
    - specialize (Hpost a Ha). lra. }
  assert (Hfg : first_greater (pre ++ az1 :: az2 :: post) q' 0
                = Some (S (length pre))).
  { replace (pre ++ az1 :: az2 :: post) with ((pre ++ [az1]) ++ az2 :: post)
      by (now rewrite <- app_assoc).
    rewrite first_greater_app.
    - rewrite length_app. simpl. f_equal. lia.
    - apply Forall_app. split.
      + rewrite Forall_forall in *. intros a Ha. specialize (Hpre a Ha). lra.
      + constructor; [lra|constructor].
    - assumption. }
  assert (Hi1 : list_index (pre ++ az1 :: az2 :: post)
                           (Z.of_nat (S (length pre)) - 1) = Ok az1).
  { replace (Z.of_nat (S (length pre)) - 1)%Z with (Z.of_nat (length pre))
      by lia.
    apply list_index_app. }
  assert (Hi2 : list_index (pre ++ az1 :: az2 :: post)
                           (Z.of_nat (S (length pre))) = Ok az2).
  { replace (pre ++ az1 :: az2 :: post) with ((pre ++ [az1]) ++ az2 :: post)
      by (now rewrite <- app_assoc).
    replace (S (length pre)) with (length (pre ++ [az1]))
      by (rewrite length_app; simpl; lia).
    apply list_index_app. }
  rewrite Hc, HL, Hfg. cbv iota beta. rewrite Hi1, Hi2. unfold bind.
  rewrite (dict_getitem_find _ _ _ He1), (dict_getitem_find _ _ _ He2).
  rewrite float_div_nonzero by lra. reflexivity.
Qed.

(** A query below the smallest stored azimuth. *)
Lemma get_obstruction_angle_before (self : TerrainProfile)
    (q amin : Q) (rest : list Q) :
  sorted (dict_keys (elevations self)) = amin :: rest ->
  float_mod q 360 < amin ->
  exists v,
    dict_find (elevations self) amin = Some v /\
    get_obstruction_angle self q = Ok v.
Proof.
  intros HL Hlt.
  destruct (sorted_spec (dict_keys (elevations self))) as [Hs _].
  rewrite HL in Hs.
  destruct (sorted_split [] rest amin Hs) as [_ Hrest].
  destruct (sorted_keys_find self amin) as [v Hv].
  { rewrite HL. now left. }
  exists v. split; [assumption|].
  unfold get_obstruction_angle.
  set (q' := float_mod q 360) in *.
  assert (Hc : dict_contains (elevations self) q' = false).
  { apply dict_contains_false. intros a Ha Heq.
    apply sorted_In in Ha. rewrite HL in Ha.
    rewrite Forall_forall in Hrest.
    destruct Ha as [<-|Ha]; [lra|]. specialize (Hrest a Ha). lra. }
  rewrite Hc, HL. simpl first_greater.
  apply Qlt_bool_iff in Hlt. rewrite Hlt.
  rewrite list_index_head. unfold bind.
  now apply dict_getitem_find.
Qed.

(** A query above the largest stored azimuth: the interpolation runs from
    the largest azimuth through 360 to the smallest. *)
Lemma get_obstruction_angle_after (self : TerrainProfile)
    (q amin amax : Q) (pre rest : list Q) :
  normalized self ->
  sorted (dict_keys (elevations self)) = amin :: rest ->
  sorted (dict_keys (elevations self)) = pre ++ [amax] ->
  amax < float_mod q 360 ->
  exists el1 el2,
    dict_find (elevations self) amax = Some el1 /\
    dict_find (elevations self) amin = Some el2 /\
    get_obstruction_angle self q
    = Ok (el1 + (float_mod q 360 - amax) / (360 + amin - amax) * (el2 - el1)).
Proof.
  intros Hn Hmin Hmax Hlt.
  destruct (sorted_spec (dict_keys (elevations self))) as [Hs _].
  pose proof Hs as Hs'. rewrite Hmax in Hs'.
  destruct (sorted_split pre [] amax Hs') as [Hpre _].
  assert (Hin1 : In amax (sorted (dict_keys (elevations self)))).
  { rewrite Hmax. apply in_or_app. right. now left. }
  assert (Hin2 : In amin (sorted (dict_keys (elevations self)))).
  { rewrite Hmin. now left. }
  destruct (sorted_keys_find self amax Hin1) as [el1 He1].
  destruct (sorted_keys_find self amin Hin2) as [el2 He2].
  exists el1, el2. split; [assumption|]. split; [assumption|].
  destruct (Hn amax (proj1 (sorted_In _ _) Hin1)) as [_ Hmax360].
  destruct (Hn amin (proj1 (sorted_In _ _) Hin2)) as [Hmin0 _].
  unfold get_obstruction_angle.
  set (q' := float_mod q 360) in *.
  assert (Hall : Forall (fun a => a <= q') (sorted (dict_keys (elevations self)))).
  { rewrite Hmax. apply Forall_app. split.
    - rewrite Forall_forall in *. intros a Ha. specialize (Hpre a Ha). lra.
    - constructor; [lra|constructor]. }
  assert (Hc : dict_contains (elevations self) q' = false).
  { apply dict_contains_false. intros a Ha Heq.
    apply sorted_In in Ha. rewrite Hmax in Ha.
    rewrite Forall_forall in Hpre.
    apply in_app_or in Ha. destruct Ha as [Ha|[<-|[]]]; [|lra].
    specialize (Hpre a Ha). lra. }
  assert (Hi1 : list_index (sorted (dict_keys (elevations self))) (-1) = Ok amax).
  { rewrite Hmax. apply list_index_last. }
  assert (Hi2 : list_index (sorted (dict_keys (elevations self))) 0 = Ok amin).
  { rewrite Hmin. apply list_index_head. }
  rewrite Hc. rewrite (proj2 (first_greater_None _ _ _) Hall).
  rewrite Hi1, Hi2. unfold bind.
  rewrite (dict_getitem_find _ _ _ He1), (dict_getitem_find _ _ _ He2).
  rewrite float_div_nonzero by lra. reflexivity.
Qed.

Lemma list_last_split {A : Type} (l : list A) :
  l <> [] -> exists pre x, l = pre ++ [x].
Proof.
  intro H. destruct (exists_last H) as (pre & x & ->). now exists pre, x.
Qed.

(** On a non-empty profile with normalised azimuths the lookup returns a
    number for every query. *)
Lemma get_obstruction_angle_total (self : TerrainProfile) (q : Q) :
  elevations self <> [] -> normalized self ->
  exists o, get_obstruction_angle self q = Ok o.
Proof.
  intros Hne Hn.
  destruct (dict_find (elevations self) (float_mod q 360)) as [v|] eqn:Hf.
  { exists v. now apply get_obstruction_angle_hit. }
  pose proof (proj1 (dict_find_None _ _) Hf) as Hnk.
  set (L := sorted (dict_keys (elevations self))).
  assert (HLne : L <> []).
  { intro H. apply sorted_nil_inv in H. apply Hne.
    unfold dict_keys in H. now apply map_eq_nil in H. }
  assert (Hneq : forall a, In a L -> ~ a == float_mod q 360).
  { intros a Ha. apply Hnk. now apply sorted_In. }
  destruct (first_greater L (float_mod q 360) 0) as [j|] eqn:Hfg.
  - destruct (first_greater_Some _ _ _ _ Hfg)
      as (pre & az & post & HL & _ & Hall & Hlt).
    destruct pre as [|a0 pre0].
    + destruct (get_obstruction_angle_before self q az post HL Hlt)
        as (v & _ & Hv).
      now exists v.
    + destruct (list_last_split (a0 :: pre0)) as (pre' & az1 & Hpre);
        [discriminate|].
      rewrite Hpre in HL, Hall. rewrite <- app_assoc in HL. simpl in HL.
      apply Forall_app in Hall. destruct Hall as [_ Haz1].
      inversion Haz1 as [|? ? Hle _]; subst.
      assert (Hlt1 : az1 < float_mod q 360).
      { apply Qle_lteq in Hle. destruct Hle as [Hle|Heq]; [assumption|].
        exfalso. apply (Hneq az1); [|assumption].
        change (In az1 L). rewrite HL. apply in_or_app. right. now left. }
      destruct (get_obstruction_angle_between self q az1 az pre' post HL Hlt1 Hlt)
        as (el1 & el2 & _ & _ & Hv).
      eexists. exact Hv.
  - apply first_greater_None in Hfg.
    destruct (list_last_split L HLne) as (pre & amax & Hmax).
    destruct L as [|amin rest] eqn:HL; [contradiction|].
    assert (Hlt : amax < float_mod q 360).
    { assert (Hin : In amax (amin :: rest)).
      { rewrite Hmax. apply in_or_app. right. now left. }
      rewrite Forall_forall in Hfg. specialize (Hfg amax Hin).
      apply Qle_lteq in Hfg. destruct Hfg as [Hlt|Heq]; [assumption|].
      exfalso. now apply (Hneq amax). }
    assert (Hmax' : L = pre ++ [amax]) by (now rewrite HL).
    destruct (get_obstruction_angle_after self q amin amax pre rest Hn HL Hmax' Hlt)
      as (el1 & el2 & _ & _ & Hv).
    eexists. exact Hv.
Qed.

Lemma first_greater_compat (l : list Q) (q q' : Q) (i : nat) :
  q == q' -> first_greater l q i = first_greater l q' i.
Proof.
  intro H. revert i. induction l as [|a l IH]; intro i; simpl; [reflexivity|].
  rewrite IH. now rewrite H.
Qed.

Lemma result_eq_refl (x : result Q) : result_eq x x.
Proof. destruct x; simpl; reflexivity. Qed.

(** The lookup depends on the query only through its normalised value. *)
Lemma get_obstruction_angle_compat (self : TerrainProfile) (q1 q2 : Q) :
  float_mod q1 360 == float_mod q2 360 ->
  result_eq (get_obstruction_angle self q1) (get_obstruction_angle self q2).
Proof.
  intro H. unfold get_obstruction_angle, dict_contains, dict_getitem.
  set (a1 := float_mod q1 360) in *. set (a2 := float_mod q2 360) in *.
  rewrite (dict_find_compat _ a1 a2 H).
  destruct (dict_find (elevations self) a2); [simpl; reflexivity|].
  rewrite (first_greater_compat _ a1 a2 0 H).
  destruct (first_greater _ a2 0) as [[|j]|].
  - apply result_eq_refl.
  - destruct (list_index _ _) as [az1| |]; simpl; try reflexivity.
    destruct (list_index _ _) as [az2| |]; simpl; try reflexivity.
    destruct (dict_find _ az1); simpl; try reflexivity.
    destruct (dict_find _ az2); simpl; try reflexivity.
    unfold float_div. destruct (Qeq_bool _ 0); simpl; [reflexivity|].
    now rewrite H.
  - destruct (list_index _ (-1)) as [az1| |]; simpl; try reflexivity.
    destruct (list_index _ 0) as [az2| |]; simpl; try reflexivity.
    destruct (dict_find _ az1); simpl; try reflexivity.
    destruct (dict_find _ az2); simpl; try reflexivity.
    unfold float_div. destruct (Qeq_bool _ 0); simpl; [reflexivity|].
    now rewrite H.
Qed.

Lemma normalizedb_sound (self : TerrainProfile) :
  normalizedb self = true -> normalized self.
Proof.
  unfold normalizedb, normalized. rewrite forallb_forall.
  intros H k Hk. specialize (H k Hk). apply andb_true_iff in H.
  destruct H as [H0 H1]. split.
  - now apply Qle_bool_iff.
  - now apply Qlt_bool_iff.
Qed.

(** [add_elevation_point] keeps the stored azimuths normalised. *)
Lemma add_elevation_point_normalized (self : TerrainProfile) (az el : Q) :
  normalized self -> normalized (add_elevation_point self az el).
Proof.
  intros Hn k Hk. unfold add_elevation_point in Hk. simpl in Hk.
  apply dict_keys_setitem in Hk. destruct Hk as [->|Hk].
  - apply float_mod_range. reflexivity.
  - now apply Hn.
Qed.

(** On a non-empty profile with normalised azimuths [is_sun_blocked]
    returns a boolean for every position of the sun. *)
Lemma is_sun_blocked_total (self : TerrainProfile) (alt az : Q) :
  elevations self <> [] -> normalized self ->
  exists b, is_sun_blocked self alt az = Ok b.
Proof.
  intros Hne Hn.
  destruct (get_obstruction_angle_total self az Hne Hn) as [o Ho].
  unfold is_sun_blocked. rewrite Ho. simpl. eauto.
Qed.

(** ** Claims on the terrain model *)

(** C1 (defect in the code): on an empty profile [is_sun_blocked] does not
    return [False]; for every altitude and azimuth it raises [IndexError],
    from [azimuths[-1]] on the empty list of sorted azimuths. *)
Theorem is_sun_blocked_empty_raises (ref alt az : Q) :
  is_sun_blocked (mkTerrainProfile [] ref) alt az = Raise IndexError.
Proof. reflexivity. Qed.

(** C4: [is_sun_blocked] compares with [<=]: whenever the obstruction angle
    at the azimuth is [o], the sun is reported blocked exactly when its
    altitude is at most [o], and visible exactly when it is above; an
    altitude equal to the obstruction angle is blocked.  On a non-empty
    profile with normalised azimuths the obstruction angle is defined for
    every azimuth. *)
Theorem is_sun_blocked_iff_le (self : TerrainProfile) (alt az : Q) :
  (forall o, get_obstruction_angle self az = Ok o ->
     (is_sun_blocked self alt az = Ok true <-> alt <= o) /\
     (is_sun_blocked self alt az = Ok false <-> o < alt) /\
     is_sun_blocked self o az = Ok true) /\
  (elevations self <> [] -> normalized self ->
   exists o, get_obstruction_angle self az = Ok o /\
             is_sun_blocked self alt az = Ok (Qle_bool alt o)).
Proof.
  split.
  - intros o Ho. unfold is_sun_blocked. rewrite Ho. simpl.
    repeat split.
    + intros [= H]. now apply Qle_bool_iff.
    + intro H. apply Qle_bool_iff in H. now rewrite H.
    + intros [= H]. apply Qlt_bool_iff. unfold Qlt_bool. now rewrite H.
    + intro H. apply Qlt_bool_iff in H. unfold Qlt_bool in H.
      apply negb_true_iff in H. now rewrite H.
    + assert (H : Qle_bool o o = true) by (apply Qle_bool_iff; apply Qle_refl).
      now rewrite H.
  - intros Hne Hn.
    destruct (get_obstruction_angle_total self az Hne Hn) as [o Ho].
    exists o. split; [assumption|].
    unfold is_sun_blocked. now rewrite Ho.
Qed.

Lemma is_sun_blocked_iff_le_witness :
  elevations two_point_profile <> [] /\ normalized two_point_profile /\
  is_sun_blocked two_point_profile 10 45 = Ok true.
Proof.
  assert (Hne : elevations two_point_profile <> []) by discriminate.
  assert (Hn : normalized two_point_profile)
    by (apply normalizedb_sound; reflexivity).
  split; [exact Hne|]. split; [exact Hn|].
  destruct (is_sun_blocked_iff_le two_point_profile 10 45) as [_ H].
  destruct (H Hne Hn) as (o & Ho & Hb).
  rewrite Hb. f_equal.
  vm_compute in Ho. injection Ho as <-. reflexivity.
Defined.

(** C5 (counterexample): the lookup on non-empty profiles whose stored
    azimuths are not all in [[0, 360)], as [load_from_dict] leaves them.
    With the azimuths 10 and 400, the query at the stored azimuth 400 does
    not return its value 5 but 17/13; with the azimuths -350 and 10, the
    query 20, after the largest azimuth, does not interpolate through 360
    but raises [ZeroDivisionError]. *)
Lemma lookup_on_unnormalized_profile :
  let wide := load_from_dict init [(10, 1); (400, 5)] 0 in
  let turn := load_from_dict init [(-350, 1); (10, 3)] 0 in
  (elevations wide <> [] /\
   dict_find (elevations wide) 400 = Some 5 /\
   exists r,
     get_obstruction_angle wide 400 = Ok r /\ r == 17 # 13 /\ ~ r == 5) /\
  (elevations turn <> [] /\
   sorted (dict_keys (elevations turn)) = [-350; 10] /\
   10 < float_mod 20 360 /\
   get_obstruction_angle turn 20 = Raise ZeroDivisionError).
Proof.
  split.
  - split; [discriminate|]. split; [reflexivity|].
    eexists. split; [vm_compute; reflexivity|].
    split; [reflexivity|intro H; vm_compute in H; discriminate H].
  - split; [discriminate|]. split; [reflexivity|].
    split; reflexivity.
Qed.

(** C5 (amended): the lookup on a profile whose stored azimuths all lie in
    [[0, 360)], with [q'] the query normalised by [% 360].
    - A query at a stored azimuth [A] with value [V] returns [V].
    - A query strictly between two neighbours [az1 < az2] of the sorted
      azimuths returns [el1 + (q' - az1) / (az2 - az1) * (el2 - el1)].
    - A query below the smallest azimuth returns the value stored there.
    - A query above the largest azimuth [amax] interpolates through 360
      to the smallest [amin]:
      [el1 + (q' - amax) / (360 + amin - amax) * (el2 - el1)]. *)
Theorem get_obstruction_angle_lookup (self : TerrainProfile) :
  normalized self ->
  (forall A V,
     dict_find (elevations self) A = Some V ->
     get_obstruction_angle self A = Ok V) /\
  (forall q az1 az2 pre post,
     sorted (dict_keys (elevations self)) = pre ++ az1 :: az2 :: post ->
     az1 < float_mod q 360 -> float_mod q 360 < az2 ->
     exists el1 el2,
       dict_find (elevations self) az1 = Some el1 /\
       dict_find (elevations self) az2 = Some el2 /\
       get_obstruction_angle self q
       = Ok (el1 + (float_mod q 360 - az1) / (az2 - az1) * (el2 - el1))) /\
  (forall q amin rest,
     sorted (dict_keys (elevations self)) = amin :: rest ->
     float_mod q 360 < amin ->
     exists v,
       dict_find (elevations self) amin = Some v /\
       get_obstruction_angle self q = Ok v) /\
  (forall q amin amax pre rest,
     sorted (dict_keys (elevations self)) = amin :: rest ->
     sorted (dict_keys (elevations self)) = pre ++ [amax] ->
     amax < float_mod q 360 ->
     exists el1 el2,
       dict_find (elevations self) amax = Some el1 /\
       dict_find (elevations self) amin = Some el2 /\
       get_obstruction_angle self q
       = Ok (el1 + (float_mod q 360 - amax) / (360 + amin - amax)
                   * (el2 - el1))).
Proof.
  intro Hn. repeat split.
  - intros A V. now apply get_obstruction_angle_stored.
  - intros q az1 az2 pre post. apply get_obstruction_angle_between.
  - intros q amin rest. apply get_obstruction_angle_before.
  - intros q amin amax pre rest. now apply get_obstruction_angle_after.
Qed.

Lemma get_obstruction_angle_lookup_witness :
  normalized two_point_profile /\
  get_obstruction_angle two_point_profile 90 = Ok 20 /\
  (exists r, get_obstruction_angle two_point_profile 45 = Ok r /\ r == 10) /\
  (exists r, get_obstruction_angle two_point_profile 180 = Ok r /\ r == 40 # 3).
Proof.
  assert (Hn : normalized two_point_profile)
    by (apply normalizedb_sound; reflexivity).
  destruct (get_obstruction_angle_lookup two_point_profile Hn)
    as (Hhit & Hbetween & _ & Hafter).
  split; [exact Hn|]. split; [|split].
  - apply Hhit. reflexivity.
  - destruct (Hbetween 45 0 90 [] []) as (el1 & el2 & H1 & H2 & Hr).
    + reflexivity.
    + reflexivity.
    + reflexivity.
    + eexists. split; [exact Hr|].
      injection H1 as <-. injection H2 as <-. reflexivity.
  - destruct (Hafter 180 0 90 [0] [90]) as (el1 & el2 & H1 & H2 & Hr).
    + reflexivity.
    + reflexivity.
    + reflexivity.
    + eexists. split; [exact Hr|].
      injection H1 as <-. injection H2 as <-. reflexivity.
Defined.

Section PeriodOnFloats.

Import PrimFloat.
Local Open Scope float_scope.

(** C6 (counterexample): on binary64 floats the remainder of a tiny
    negative query rounds up to 360.0, which [% 360] then sends to 0.0: on
    the profile with 5 at azimuth 10 and 20 at azimuth 90 the query
    [-1e-15] interpolates through 360 and returns about 5.5357, while the
    query [(-1e-15) % 360] returns 5. *)
Lemma lookup_not_periodic_on_floats :
  let terrain := Binary64.load_from_dict Binary64.init [(10, 5); (90, 20)] 0 in
  let q := (-0x1.203af9ee75616p-50)%float in
  Binary64.float_mod q 360 = 360%float /\
  Binary64.float_mod (Binary64.float_mod q 360) 360 = 0%float /\
  Binary64.get_obstruction_angle terrain q = Ok 0x1.6249249249248p+2%float /\
  Binary64.get_obstruction_angle terrain (Binary64.float_mod q 360)
  = Ok 5%float /\
  Binary64.get_obstruction_angle terrain q
  <> Binary64.get_obstruction_angle terrain (Binary64.float_mod q 360).
Proof.
  intros terrain q.
  assert (H1 : Binary64.get_obstruction_angle terrain q
               = Ok 0x1.6249249249248p+2%float) by (vm_compute; reflexivity).
  assert (H2 : Binary64.get_obstruction_angle terrain
                 (Binary64.float_mod q 360) = Ok 5%float)
    by (vm_compute; reflexivity).
  split; [vm_compute; reflexivity|]. split; [vm_compute; reflexivity|].
  split; [exact H1|]. split; [exact H2|].
  rewrite H1, H2. intro H.
  apply (f_equal (fun r => match r with Ok x => 5 <? x | _ => false end)) in H.
  vm_compute in H. discriminate H.
Qed.

End PeriodOnFloats.

(** C6 (amended): a query whose remainder [q % 360] is below 360 and that
    remainder give the same outcome (the same number, or the same
    exception).  For a query that is not negative the remainder is
    computed without rounding: it lies in [[0, 360)] and differs from the
    query by a whole number of turns, so that the lookup has period 360
    there.  (In exact arithmetic every remainder is below 360; on floats
    the remainder of a tiny negative query is 360.0.) *)
Theorem get_obstruction_angle_periodic (self : TerrainProfile) (q : Q) :
  (float_mod q 360 < 360 ->
   result_eq (get_obstruction_angle self q)
             (get_obstruction_angle self (float_mod q 360))) /\
  (0 <= q ->
   0 <= float_mod q 360 /\ float_mod q 360 < 360 /\
   exists turns : Z,
     (0 <= turns)%Z /\ q == float_mod q 360 + 360 * inject_Z turns).
Proof.
  split.
  - intros _. apply get_obstruction_angle_compat. symmetry.
    apply float_mod_idem. reflexivity.
  - intro Hq.
    destruct (float_mod_range q 360 ltac:(reflexivity)) as [H0 H360].
    split; [exact H0|]. split; [exact H360|].
    exists (Qfloor (q / 360)). split.
    + assert (H : (Qfloor 0 <= Qfloor (q / 360))%Z).
      { apply Qfloor_resp_le. apply Qle_shift_div_l; [reflexivity|]. lra. }
      exact H.
    + unfold float_mod. ring.
Qed.

Lemma get_obstruction_angle_periodic_witness :
  float_mod 405 360 < 360 /\ 0 <= 405 /\
  result_eq (get_obstruction_angle two_point_profile 405)
            (get_obstruction_angle two_point_profile (float_mod 405 360)) /\
  exists turns : Z, 405 == float_mod 405 360 + 360 * inject_Z turns.
Proof.
  assert (H1 : float_mod 405 360 < 360) by reflexivity.
  assert (H2 : 0 <= 405) by discriminate.
  split; [exact H1|]. split; [exact H2|].
  destruct (get_obstruction_angle_periodic two_point_profile 405)
    as [Hsame Hturns].
  split; [exact (Hsame H1)|].
  destruct (Hturns H2) as (_ & _ & turns & _ & Ht).
  exists turns. exact Ht.
Defined.

(** C7 (defect in the code): [load_from_dict], and [load_from_file]
    through it, store the azimuths as given, without the [% 360] of
    [add_elevation_point]: the key 400 is stored as 400, outside
    [[0, 360)], and the lookup at 40 = 400 mod 360 misses it. *)
Theorem load_from_dict_not_normalized :
  elevations (load_from_dict init [(10, 1); (400, 5)] 0) = [(10, 1); (400, 5)] /\
  elevations (load_from_file init
                (mkTerrainFile (Some [(10, 1); (400, 5)]) None))
  = [(10, 1); (400, 5)] /\
  ~ normalized (load_from_dict init [(10, 1); (400, 5)] 0) /\
  elevations (add_elevation_point (add_elevation_point init 10 1) 400 5)
  = [(float_mod 10 360, 1); (float_mod 400 360, 5)] /\
  float_mod 400 360 == 40 /\
  (exists r, get_obstruction_angle (load_from_dict init [(10, 1); (400, 5)] 0) 400
             = Ok r /\ ~ r == 5).
Proof.
  split; [reflexivity|]. split; [reflexivity|]. split; [|split; [|split]].
  - intro H. destruct (H 400) as [_ Hlt].
    + simpl. right. now left.
    + revert Hlt. apply Qle_not_lt. discriminate.
  - reflexivity.
  - reflexivity.
  - eexists. split; [vm_compute; reflexivity|]. discriminate.
Qed.

Section SingleSampleOnFloats.

Import PrimFloat.
Local Open Scope float_scope.

(** C10 (counterexample): on binary64 floats a single sample at the
    azimuth [-1e20], as [load_from_dict] stores it, makes the wrap-around
    denominator [360 + az2 - az1] round to zero: the query 10 raises
    [ZeroDivisionError] instead of returning the value of the sample. *)
Lemma single_sample_far_azimuth_raises :
  let terrain :=
    Binary64.load_from_dict Binary64.init [(-0x1.5af1d78b58c4p+66, 5)%float]
                            0%float in
  length (Binary64.elevations terrain) = 1%nat /\
  Binary64.float_mod 10 360 = 10%float /\
  Binary64.get_obstruction_angle terrain 10%float = Raise ZeroDivisionError.
Proof.
  split; [reflexivity|]. split; vm_compute; reflexivity.
Qed.

End SingleSampleOnFloats.

(** C10 (amended): on a profile with exactly one sample, at an azimuth in
    [[0, 360)], the lookup is constant: every query returns the value of
    that sample, whether its remainder is below, equal to, or above the
    azimuth of the sample. *)
Theorem get_obstruction_angle_single (a v ref q : Q) :
  0 <= a -> a < 360 ->
  exists r,
    get_obstruction_angle (mkTerrainProfile [(a, v)] ref) q = Ok r /\ r == v.
Proof.
  intros _ _.
  unfold get_obstruction_angle, dict_contains, dict_getitem.
  set (q' := float_mod q 360). simpl.
  destruct (Qeq_bool a q') eqn:E.
  - exists v. split; reflexivity.
  - destruct (Qlt_bool q' a) eqn:Hlt.
    + simpl. rewrite Qeq_bool_refl. exists v. split; reflexivity.
    + cbn [list_index length nth_error Z.of_nat Z.ltb Z.leb Z.compare
           Pos.compare Pos.compare_cont Z.add Z.pos_sub Z.to_nat orb bind
           Pos.of_succ_nat Z.opp].
      rewrite Qeq_bool_refl.
      unfold float_div.
      assert (Hd : Qeq_bool (360 + a - a) 0 = false).
      { destruct (Qeq_bool (360 + a - a) 0) eqn:E'; [|reflexivity].
        apply Qeq_bool_iff in E'. exfalso. lra. }
      rewrite Hd. eexists. split; [reflexivity|]. ring.
Qed.

Lemma get_obstruction_angle_single_witness :
  0 <= 90 /\ 90 < 360 /\
  (exists r,
     get_obstruction_angle (mkTerrainProfile [(90, 12)] 0) 200 = Ok r /\
     r == 12) /\
  (exists r,
     get_obstruction_angle (mkTerrainProfile [(90, 12)] 0) 30 = Ok r /\
     r == 12).
Proof.
  assert (H0 : 0 <= 90) by discriminate.
  assert (H1 : 90 < 360) by reflexivity.
  split; [exact H0|]. split; [exact H1|].
  split.
  - exact (get_obstruction_angle_single 90 12 0 200 H0 H1).
  - exact (get_obstruction_angle_single 90 12 0 30 H0 H1).
Defined.

(** ** Bisection *)

Lemma divide_and_round_half (w : Z) :
  (w / 2 <= divide_and_round w 2 <= (w + 1) / 2)%Z.
Proof.
  unfold divide_and_round.
  pose proof (Z.div_mod w 2 ltac:(lia)) as Hw.
  pose proof (Z.mod_pos_bound w 2 ltac:(lia)) as Hm.
  pose proof (Z.div_mod (w + 1) 2 ltac:(lia)) as Hw1.
  pose proof (Z.mod_pos_bound (w + 1) 2 ltac:(lia)) as Hm1.
  remember (w / 2)%Z as q eqn:Hq. remember (w mod 2)%Z as m eqn:Hmq.
  assert (Hcase : m = 0%Z \/ m = 1%Z) by lia.
  destruct Hcase as [->| ->]; simpl.
  - lia.
  - destruct (q mod 2 =? 1)%Z; lia.
Qed.

Section Bisection.

Variable provider : Q -> Q -> Q -> Z -> Q * Q.
Variable self : SolarCalculator.

Let alt (t : Z) : Q := altitude (get_solar_position provider self t).

(** The horizon bisection is the altitude bisection at threshold 0. *)
Lemma binary_search_horizon_loop_eq (fuel : nat) (tb ta tol : Z) :
  binary_search_horizon_loop provider fuel self tb ta tol
  = binary_search_altitude_loop provider fuel self tb ta 0 tol.
Proof.
  revert tb ta. induction fuel as [|fuel IH]; intros tb ta; simpl;
    [reflexivity|].
  now rewrite !IH.
Qed.

Lemma binary_search_horizon_eq (tb ta tol : Z) :
  _binary_search_horizon_crossing provider self tb ta tol
  = _binary_search_altitude_crossing provider self tb ta 0 tol.
Proof. apply binary_search_horizon_loop_eq. Qed.

(** A bracket that is not wider than the tolerance, or runs backward in
    time, is returned as it is: the loop body never runs. *)
Lemma binary_search_altitude_loop_narrow (fuel : nat) (tb ta : Z)
    (target : Q) (tol : Z) :
  (ta - tb <= tol * SECOND)%Z ->
  binary_search_altitude_loop provider (S fuel) self tb ta target tol = Ok ta.
Proof.
  intro H. simpl. unfold total_seconds_gt.
  destruct (Z.ltb_spec (tol * SECOND) (ta - tb)); [lia|reflexivity].
Qed.

Lemma binary_search_backward (tb ta : Z) (target : Q) :
  (ta <= tb)%Z ->
  _binary_search_altitude_crossing provider self tb ta target 1 = Ok ta.
Proof.
  intro H. unfold _binary_search_altitude_crossing, bisection_fuel.
  apply binary_search_altitude_loop_narrow. unfold SECOND. lia.
Qed.

(** The loop on a forward bracket: with fuel for [n] halvings of a
    bracket of width at most [2^n] it returns the end [r] of a bracket
    [(b, r)] inside the first one, no wider than the tolerance, whose ends
    are either the given ones or instants where the loop saw the altitude
    above ([b]) and at or below ([r]) the threshold. *)
Lemma binary_search_altitude_loop_spec (target : Q) (tol : Z) (n : nat) :
  (1 <= tol)%Z ->
  forall tb ta,
    (tb < ta)%Z -> (ta - tb <= 2 ^ Z.of_nat n)%Z ->
    exists b r,
      binary_search_altitude_loop provider (S n) self tb ta target tol = Ok r /\
      (tb <= b < r)%Z /\ (r <= ta)%Z /\ (r - b <= tol * SECOND)%Z /\
      (b = tb \/ target < alt b) /\ (r = ta \/ alt r <= target).
Proof.
  intro Htol. induction n as [|n IH]; intros tb ta Hlt Hw.
  - exists tb, ta. split.
    + apply binary_search_altitude_loop_narrow.
      change (2 ^ Z.of_nat 0)%Z with 1%Z in Hw. unfold SECOND. lia.
    + repeat split; try lia; try (now left).
      change (2 ^ Z.of_nat 0)%Z with 1%Z in Hw. unfold SECOND. lia.
  - destruct (Z.ltb_spec (tol * SECOND) (ta - tb)) as [Hgt|Hle].
    2:{ exists tb, ta. split;
          [now apply binary_search_altitude_loop_narrow|].
        repeat split; try lia; now left. }
    pose proof (divide_and_round_half (ta - tb)) as Hdr.
    set (mid := (tb + td_div (ta - tb) 2)%Z).
    assert (Hpow : (2 ^ Z.of_nat (S n) = 2 * 2 ^ Z.of_nat n)%Z).
    { rewrite Nat2Z.inj_succ. apply Z.pow_succ_r. lia. }
    assert (Hmid : (tb < mid < ta)%Z /\ (mid - tb <= 2 ^ Z.of_nat n)%Z /\
                   (ta - mid <= 2 ^ Z.of_nat n)%Z).
    { unfold mid, td_div.
      pose proof (Z.div_mod (ta - tb) 2 ltac:(lia)).
      pose proof (Z.mod_pos_bound (ta - tb) 2 ltac:(lia)).
      pose proof (Z.div_mod (ta - tb + 1) 2 ltac:(lia)).
      pose proof (Z.mod_pos_bound (ta - tb + 1) 2 ltac:(lia)).
      unfold SECOND in Hgt. lia. }
    destruct Hmid as (Hin & Hw1 & Hw2).
    change (binary_search_altitude_loop provider (S (S n)) self tb ta target tol)
      with (if total_seconds_gt (ta - tb) tol then
              if Qlt_bool target (alt mid) then
                binary_search_altitude_loop provider (S n) self mid ta target tol
              else
                binary_search_altitude_loop provider (S n) self tb mid target tol
            else Ok ta).
    unfold total_seconds_gt.
    destruct (Z.ltb_spec (tol * SECOND) (ta - tb)); [|lia].
    destruct (Qlt_bool target (alt mid)) eqn:E.
    + apply Qlt_bool_iff in E.
      destruct (IH mid ta ltac:(lia) Hw2) as (b & r & Hr & Hb & Hra & Hwd & Hbv & Hrv).
      exists b, r. split; [exact Hr|].
      repeat split; try lia; [|exact Hrv].
      destruct Hbv as [->|Hbv]; [now right|now right].
    + apply Qlt_bool_false in E.
      destruct (IH tb mid ltac:(lia) Hw1) as (b & r & Hr & Hb & Hra & Hwd & Hbv & Hrv).
      exists b, r. split; [exact Hr|].
      repeat split; try lia; [exact Hbv|].
      destruct Hrv as [->|Hrv]; [now right|now right].
Qed.

Lemma bisection_fuel_enough (tb ta : Z) :
  (tb < ta)%Z ->
  (ta - tb <= 2 ^ Z.of_nat (Z.to_nat (Z.log2_up (ta - tb))))%Z.
Proof.
  intro H. rewrite Z2Nat.id by apply Z.log2_up_nonneg.
  destruct (Z.eq_dec (ta - tb) 1) as [->|Hne]; [simpl; lia|].
  apply Z.log2_up_spec. lia.
Qed.

(** Forward brackets: the bisection terminates on its own fuel. *)
Lemma binary_search_altitude_forward (tb ta : Z) (target : Q) :
  (tb < ta)%Z ->
  exists b r,
    _binary_search_altitude_crossing provider self tb ta target 1 = Ok r /\
    (tb <= b < r)%Z /\ (r <= ta)%Z /\ (r - b <= 1 * SECOND)%Z /\
    (b = tb \/ target < alt b) /\ (r = ta \/ alt r <= target).
Proof.
  intro H. unfold _binary_search_altitude_crossing, bisection_fuel.
  apply binary_search_altitude_loop_spec; [lia|assumption|].
  now apply bisection_fuel_enough.
Qed.

(** The bisection returns on every bracket. *)
Lemma binary_search_altitude_total (tb ta : Z) (target : Q) :
  exists r, _binary_search_altitude_crossing provider self tb ta target 1 = Ok r.
Proof.
  destruct (Z.lt_ge_cases tb ta) as [H|H].
  - destruct (binary_search_altitude_forward tb ta target H) as (b & r & Hr & _).
    now exists r.
  - exists ta. now apply binary_search_backward.
Qed.

(** On a forward bracket with the sun above the threshold at its start
    and at or below at its end, the returned instant [r] is at or below the
    threshold and the sun is above it less than a second (the tolerance)
    earlier: the altitude crosses the threshold in [[r - 1s, r]]. *)
Lemma binary_search_altitude_converges (tb ta : Z) (target : Q) :
  (tb < ta)%Z -> target < alt tb -> alt ta <= target ->
  exists b r,
    _binary_search_altitude_crossing provider self tb ta target 1 = Ok r /\
    (tb <= b < r)%Z /\ (r <= ta)%Z /\ (r - b <= 1 * SECOND)%Z /\
    target < alt b /\ alt r <= target.
Proof.
  intros H Hb Ha.
  destruct (binary_search_altitude_forward tb ta target H)
    as (b & r & Hr & Hbr & Hra & Hw & Hbv & Hrv).
  exists b, r. repeat split; try assumption; try lia.
  - destruct Hbv as [->|Hbv]; assumption.
  - destruct Hrv as [->|Hrv]; assumption.
Qed.

End Bisection.

(** ** The coarse scans *)

Lemma scan_time_succ (start step : Z) (k : nat) :
  scan_time start step (S k) = (scan_time start step k + step)%Z.
Proof. unfold scan_time. lia. Qed.

Lemma td_days_bound (x : Z) :
  ~ (1 < Z.abs (td_days x))%Z -> (- DAY <= x < 2 * DAY)%Z.
Proof.
  unfold td_days. intro H.
  assert (HD : (0 < DAY)%Z) by reflexivity.
  pose proof (Z.div_mod x DAY ltac:(lia)) as Hx.
  pose proof (Z.mod_pos_bound x DAY HD) as Hm.
  assert (Hq : (-1 <= x / DAY <= 1)%Z) by lia.
  nia.
Qed.

Lemma replace_hour_offset (dt h : Z) :
  (replace_hour dt h - dt = h * HOUR - dt mod DAY)%Z.
Proof.
  unfold replace_hour.
  pose proof (Z.div_mod dt DAY ltac:(discriminate)). lia.
Qed.

Section TwilightScan.

Variable provider : Q -> Q -> Q -> Z -> Q * Q.
Variable self : SolarCalculator.
Variable dt : Z.
Variable target : Q.
Variable search_forward : bool.

Let step : Z := if search_forward then 1%Z else (-1)%Z.
Let t : nat -> Z := twilight_time dt search_forward.
Let diff : nat -> Q := twilight_diff provider self dt target search_forward.
Let passed : nat -> Prop :=
  twilight_scan_passed provider self dt target search_forward.

(** One turn of the scan, from sample [i] to sample [i + 1]. *)
Lemma find_altitude_loop_step (fuel i : nat) :
  find_altitude_loop provider (S fuel) self dt target step (t i) (diff i)
  = if Qle_bool (diff i * diff (S i)) 0 then
      r <- _binary_search_altitude_crossing provider self (t i) (t (S i))
             target 1 ;;
      Ok (Some r)
    else if (1 <? Z.abs (td_days (t (S i) - dt)))%Z then Ok None
    else find_altitude_loop provider fuel self dt target step (t (S i))
                            (diff (S i)).
Proof.
  simpl. unfold diff, twilight_diff, t, twilight_time. fold step.
  rewrite scan_time_succ.
  replace (scan_time (replace_hour dt 12) (hours step) i + hours step
           - hours step)%Z
    with (scan_time (replace_hour dt 12) (hours step) i) by lia.
  reflexivity.
Qed.

Lemma find_altitude_crossing_start :
  _find_altitude_crossing provider self dt target search_forward
  = find_altitude_loop provider 100 self dt target step (t 0) (diff 0).
Proof.
  unfold _find_altitude_crossing, diff, twilight_diff, t, twilight_time.
  fold step. unfold scan_time.
  replace (replace_hour dt 12 + Z.of_nat 0 * hours step)%Z
    with (replace_hour dt 12) by lia.
  reflexivity.
Qed.

Lemma twilight_scan_bound (j : nat) :
  ~ (1 < Z.abs (td_days (t j - dt)))%Z -> (j <= 60)%nat.
Proof.
  intro H. apply td_days_bound in H.
  unfold t, twilight_time, scan_time in H. fold step in H.
  pose proof (replace_hour_offset dt 12) as Ho.
  pose proof (Z.mod_pos_bound dt DAY ltac:(reflexivity)) as Hm.
  unfold hours, step, DAY, HOUR, MINUTE, SECOND in *.
  destruct search_forward; lia.
Qed.

Lemma find_altitude_loop_skip (k fuel : nat) :
  passed k ->
  find_altitude_loop provider (k + fuel) self dt target step (t 0) (diff 0)
  = find_altitude_loop provider fuel self dt target step (t k) (diff k).
Proof.
  intro Hp.
  assert (Hgen : forall d i, (i + d = k)%nat ->
            find_altitude_loop provider (d + fuel) self dt target step
                               (t i) (diff i)
            = find_altitude_loop provider fuel self dt target step
                                 (t k) (diff k)).
  { induction d as [|d IH]; intros i Hi.
    - simpl. replace i with k by lia. reflexivity.
    - change (S d + fuel)%nat with (S (d + fuel)).
      rewrite find_altitude_loop_step.
      destruct (Hp i ltac:(lia)) as [Hc Ho].
      destruct (Qle_bool (diff i * diff (S i)) 0) eqn:E.
      { apply Qle_bool_iff in E. contradiction. }
      destruct (Z.ltb_spec 1 (Z.abs (td_days (t (S i) - dt)))); [contradiction|].
      apply IH. lia. }
  apply Hgen. lia.
Qed.

Lemma twilight_scan_passed_bound (k : nat) :
  passed k -> (k <= 60)%nat.
Proof.
  destruct k as [|k]; [lia|]. intro Hp.
  destruct (Hp k ltac:(lia)) as [_ Ho]. now apply twilight_scan_bound.
Qed.


(** Without such a pair up to the first sample out of bounds, the scan
    returns [None]. *)
Lemma find_altitude_crossing_none (k : nat) :
  passed k ->
  ~ diff k * diff (S k) <= 0 ->
  (1 < Z.abs (td_days (t (S k) - dt)))%Z ->
  _find_altitude_crossing provider self dt target search_forward = Ok None.
Proof.
  intros Hp Hc Ho.
  pose proof (twilight_scan_passed_bound k Hp) as Hk.
  rewrite find_altitude_crossing_start.
  replace 100%nat with (k + S (99 - k))%nat by lia.
  rewrite (find_altitude_loop_skip k _ Hp).
  rewrite find_altitude_loop_step.
  destruct (Qle_bool (diff k * diff (S k)) 0) eqn:E.
  { apply Qle_bool_iff in E. contradiction. }
  destruct (Z.ltb_spec 1 (Z.abs (td_days (t (S k) - dt)))); [reflexivity|lia].
Qed.

(** The scan always returns: a refined crossing or [None]. *)
Lemma find_altitude_crossing_total :
  exists o,
    _find_altitude_crossing provider self dt target search_forward = Ok o.
Proof.
  assert (Hgen : forall fuel i, (i <= 60)%nat -> (61 <= i + fuel)%nat ->
            exists o, find_altitude_loop provider fuel self dt target step
                                         (t i) (diff i) = Ok o).
  { induction fuel as [|fuel IH]; intros i Hi Hf; [lia|].
    rewrite find_altitude_loop_step.
    destruct (Qle_bool (diff i * diff (S i)) 0).
    - destruct (binary_search_altitude_total provider self (t i) (t (S i)) target)
        as [r Hr].
      rewrite Hr. now exists (Some r).
    - destruct (Z.ltb_spec 1 (Z.abs (td_days (t (S i) - dt)))) as [Ho|Ho].
      + now exists None.
      + apply IH; [|lia]. apply twilight_scan_bound. lia. }
  rewrite find_altitude_crossing_start.
  apply (Hgen 100%nat 0%nat); lia.
Qed.

End TwilightScan.

Lemma day_split (d r : Z) :
  (0 <= r < DAY)%Z ->
  ((d * DAY + r) / DAY = d)%Z /\ ((d * DAY + r) mod DAY = r)%Z.
Proof.
  intro H. split.
  - rewrite Z.add_comm, Z.div_add by discriminate.
    rewrite Z.div_small by assumption. reflexivity.
  - rewrite Z.add_comm, Z.mod_add by discriminate.
    now apply Z.mod_small.
Qed.

Section SunsetScan.

Variable provider : Q -> Q -> Q -> Z -> Q * Q.
Variable self : SolarCalculator.
Variable dt : Z.
Variable step_minutes : Z.
Hypothesis step_range : (1 <= step_minutes <= 60)%Z.

Let t : nat -> Z := sunset_time dt step_minutes.
Let alt : nat -> Q := sunset_altitude provider self dt step_minutes.
Let passed : nat -> Prop := sunset_scan_passed provider self dt step_minutes.

(** A sample of the afternoon of the day of [dt], before 23:00. *)
Let afternoon (i : nat) : Prop :=
  (replace_hour dt 12 <= t i < replace_hour dt 23)%Z.

Lemma sunset_time_succ (i : nat) : t (S i) = (t i + minutes step_minutes)%Z.
Proof. apply scan_time_succ. Qed.

Lemma afternoon_0 : afternoon 0.
Proof.
  unfold afternoon, t, sunset_time, scan_time, replace_hour, HOUR, MINUTE, SECOND.
  lia.
Qed.

Lemma afternoon_day (i : nat) : afternoon i -> day (t i) = day dt.
Proof.
  unfold afternoon, replace_hour. intro H.
  unfold day, toordinal. do 3 f_equal.
  replace (t i) with (dt / DAY * DAY + (t i - dt / DAY * DAY))%Z by lia.
  apply day_split. unfold DAY, HOUR, MINUTE, SECOND in *. lia.
Qed.

Lemma afternoon_succ (i : nat) :
  afternoon i -> ~ (23 <= hour (t (S i)))%Z -> afternoon (S i).
Proof.
  unfold afternoon, replace_hour. intros H Hh.
  rewrite sunset_time_succ in *. unfold minutes in *.
  set (x := (t i + step_minutes * MINUTE)%Z) in *.
  assert (Hx : (0 <= x - dt / DAY * DAY < DAY)%Z).
  { unfold x, DAY, HOUR, MINUTE, SECOND in *. lia. }
  destruct (day_split (dt / DAY) _ Hx) as [_ Hmod].
  replace (dt / DAY * DAY + (x - dt / DAY * DAY))%Z with x in Hmod by lia.
  unfold hour in Hh. rewrite Hmod in Hh.
  assert (Hlt : ((x - dt / DAY * DAY) / HOUR < 23)%Z) by lia.
  assert (Hlt' : (x - dt / DAY * DAY < 23 * HOUR)%Z).
  { pose proof (Z.div_mod (x - dt / DAY * DAY) HOUR ltac:(discriminate)).
    pose proof (Z.mod_pos_bound (x - dt / DAY * DAY) HOUR ltac:(reflexivity)).
    nia. }
  unfold x, DAY, HOUR, MINUTE, SECOND in *. lia.
Qed.

Lemma afternoon_bound (i : nat) : afternoon i -> (i <= 659)%nat.
Proof.
  unfold afternoon, t, sunset_time, scan_time, replace_hour, minutes.
  unfold HOUR, MINUTE, SECOND. nia.
Qed.

Lemma sunset_scan_passed_afternoon (k : nat) : passed k -> afternoon k.
Proof.
  induction k as [|k IH]; intro Hp; [apply afternoon_0|].
  apply afternoon_succ.
  - apply IH. intros j Hj. apply Hp. lia.
  - apply (Hp k). lia.
Qed.

(** One turn of the scan, from sample [i] to sample [i + 1]. *)
Lemma find_sunset_loop_step (fuel i : nat) :
  afternoon i ->
  find_sunset_loop provider (S fuel) self dt step_minutes (t i) (alt i)
  = if Qlt_bool 0 (alt i) && Qle_bool (alt (S i)) 0 then
      r <- _binary_search_horizon_crossing provider self (t i) (t (S i)) 1 ;;
      Ok (Some r)
    else if (23 <=? hour (t (S i)))%Z then Ok None
    else find_sunset_loop provider fuel self dt step_minutes (t (S i))
                          (alt (S i)).
Proof.
  intro Ha. simpl. rewrite (afternoon_day i Ha), Z.eqb_refl.
  unfold alt, sunset_altitude. fold t. rewrite sunset_time_succ.
  replace (t i + minutes step_minutes - minutes step_minutes)%Z
    with (t i) by lia.
  reflexivity.
Qed.

Lemma find_sunset_time_start :
  find_sunset_time provider self dt step_minutes
  = find_sunset_loop provider 1441 self dt step_minutes (t 0) (alt 0).
Proof.
  unfold find_sunset_time, alt, sunset_altitude, t, sunset_time, scan_time.
  replace (replace_hour dt 12 + Z.of_nat 0 * minutes step_minutes)%Z
    with (replace_hour dt 12) by lia.
  reflexivity.
Qed.

Lemma find_sunset_loop_skip (k fuel : nat) :
  passed k ->
  find_sunset_loop provider (k + fuel) self dt step_minutes (t 0) (alt 0)
  = find_sunset_loop provider fuel self dt step_minutes (t k) (alt k).
Proof.
  intro Hp.
  assert (Hgen : forall d i, (i + d = k)%nat ->
            find_sunset_loop provider (d + fuel) self dt step_minutes
                             (t i) (alt i)
            = find_sunset_loop provider fuel self dt step_minutes
                               (t k) (alt k)).
  { induction d as [|d IH]; intros i Hi.
    - simpl. replace i with k by lia. reflexivity.
    - change (S d + fuel)%nat with (S (d + fuel)).
      rewrite find_sunset_loop_step.
      2:{ apply sunset_scan_passed_afternoon. intros j Hj. apply Hp. lia. }
      destruct (Hp i ltac:(lia)) as [Hc Ho].
      destruct (Qlt_bool 0 (alt i) && Qle_bool (alt (S i)) 0) eqn:E.
      { apply andb_true_iff in E. destruct E as [E1 E2].
        apply Qlt_bool_iff in E1. apply Qle_bool_iff in E2.
        exfalso. apply Hc. now split. }
      destruct (Z.leb_spec 23 (hour (t (S i)))); [contradiction|].
      apply IH. lia. }
  apply Hgen. lia.
Qed.


(** Without such a pair up to the first sample at or after 23:00 the scan
    returns [None], whatever the products [diff_prev * diff_curr] are. *)
Lemma find_sunset_time_none (k : nat) :
  passed k ->
  ~ (0 < alt k /\ alt (S k) <= 0) ->
  (23 <= hour (t (S k)))%Z ->
  find_sunset_time provider self dt step_minutes = Ok None.
Proof.
  intros Hp Hc Ho.
  pose proof (sunset_scan_passed_afternoon k Hp) as Ha.
  pose proof (afternoon_bound k Ha) as Hk.
  rewrite find_sunset_time_start.
  replace 1441%nat with (k + S (1440 - k))%nat by lia.
  rewrite (find_sunset_loop_skip k _ Hp).
  rewrite find_sunset_loop_step by assumption.
  destruct (Qlt_bool 0 (alt k) && Qle_bool (alt (S k)) 0) eqn:E.
  { apply andb_true_iff in E. destruct E as [E1 E2].
    apply Qlt_bool_iff in E1. apply Qle_bool_iff in E2.
    exfalso. apply Hc. now split. }
  destruct (Z.leb_spec 23 (hour (t (S k)))); [reflexivity|lia].
Qed.

(** The horizon scan always returns. *)
Lemma find_sunset_time_total :
  exists o, find_sunset_time provider self dt step_minutes = Ok o.
Proof.
  assert (Hgen : forall fuel i, afternoon i -> (660 <= i + fuel)%nat ->
            exists o, find_sunset_loop provider fuel self dt step_minutes
                                       (t i) (alt i) = Ok o).
  { induction fuel as [|fuel IH]; intros i Ha Hf.
    - apply afternoon_bound in Ha. lia.
    - rewrite find_sunset_loop_step by assumption.
      destruct (Qlt_bool 0 (alt i) && Qle_bool (alt (S i)) 0).
      + destruct (binary_search_altitude_total provider self (t i) (t (S i)) 0)
          as [r Hr].
        rewrite <- binary_search_horizon_eq in Hr.
        rewrite Hr. now exists (Some r).
      + destruct (Z.leb_spec 23 (hour (t (S i)))) as [Ho|Ho].
        * now exists None.
        * apply IH; [|lia]. apply afternoon_succ; [assumption|lia]. }
  rewrite find_sunset_time_start.
  apply (Hgen 1441%nat 0%nat); [apply afternoon_0|lia].
Qed.

End SunsetScan.

(** ** The daily sweep *)

Lemma filter_nil_iff {A : Type} (f : A -> bool) (l : list A) :
  filter f l = [] <-> forall x, In x l -> f x = false.
Proof.
  induction l as [|a l IH]; simpl.
  - split; [tauto|reflexivity].
  - destruct (f a) eqn:E.
    + split; [discriminate|]. intro H. specialize (H a (or_introl eq_refl)).
      congruence.
    + rewrite IH. split.
      * intros H x [<-|Hx]; auto.
      * intros H x Hx. apply H. now right.
Qed.

Section Sweep.

Variable provider : Q -> Q -> Q -> Z -> Q * Q.
Variable solar_calc : SolarCalculator.
Variable terrain : TerrainProfile.
Variable terrain_file : bool.

Lemma minute_samples_succ (start : Z) (n : nat) :
  minute_samples provider solar_calc start (S n)
  = get_solar_position provider solar_calc start
    :: minute_samples provider solar_calc (start + minutes 1)%Z n.
Proof.
  unfold minute_samples. simpl seq. simpl map.
  f_equal.
  - f_equal. simpl. lia.
  - rewrite <- seq_shift, map_map. apply map_ext. intro k.
    f_equal. unfold minutes, MINUTE, SECOND. lia.
Qed.

(** The sampling loop over [n] minutes appends the samples that pass the
    test, provided the test raises on none of them. *)
Lemma sample_loop_spec (n : nat) :
  forall fuel current_time solar_positions,
    (n < fuel)%nat ->
    (forall pos, In pos (minute_samples provider solar_calc current_time n) ->
                 exists b, sample_keep terrain terrain_file pos = Ok b) ->
    sample_loop provider fuel solar_calc terrain terrain_file current_time
                (current_time + Z.of_nat n * MINUTE)%Z solar_positions
    = Ok (solar_positions
          ++ filter (sample_kept terrain terrain_file)
               (minute_samples provider solar_calc current_time n)).
Proof.
  induction n as [|n IH]; intros fuel ct acc Hf Hk.
  - destruct fuel as [|fuel]; [lia|]. simpl.
    destruct (Z.ltb_spec ct (ct + 0)%Z); [lia|].
    now rewrite app_nil_r.
  - destruct fuel as [|fuel]; [lia|].
    rewrite minute_samples_succ in *.
    set (pos := get_solar_position provider solar_calc ct) in *.
    destruct (Hk pos (or_introl eq_refl)) as [b Hb].
    cbn [sample_loop].
    destruct (Z.ltb_spec ct (ct + Z.of_nat (S n) * MINUTE)%Z) as [_|Hge].
    2:{ unfold MINUTE, SECOND in Hge. lia. }
    fold pos.
    replace (ct + Z.of_nat (S n) * MINUTE)%Z
      with (ct + minutes 1 + Z.of_nat n * MINUTE)%Z
      by (unfold minutes, MINUTE, SECOND; lia).
    cbn [filter]. unfold sample_kept at 1. rewrite Hb.
    unfold sample_keep in Hb.
    destruct terrain_file.
    + destruct (is_sun_blocked terrain (altitude pos) (azimuth pos))
        as [blocked| |]; simpl in Hb; try discriminate.
      injection Hb as <-. cbn [bind].
      rewrite IH; [|lia|intros p Hp; apply Hk; now right].
      destruct (negb blocked); [now rewrite <- app_assoc|reflexivity].
    + assert (Hb' : b = Qlt_bool 0 (altitude pos)) by congruence.
      subst b. cbn [bind].
      rewrite IH; [|lia|intros p Hp; apply Hk; now right].
      destruct (Qlt_bool 0 (altitude pos)); [now rewrite <- app_assoc|reflexivity].
Qed.

End Sweep.

(** Behind terrain that rises to the horizontal or above, a position kept
    by the terrain test is above the horizon: it is kept without terrain
    too. *)
Lemma kept_with_terrain_above_horizon (terrain : TerrainProfile)
    (pos : SolarPosition) (o : Q) :
  get_obstruction_angle terrain (azimuth pos) = Ok o -> 0 <= o ->
  sample_kept terrain true pos = true ->
  sample_kept init false pos = true.
Proof.
  intros Ho Hpos. unfold sample_kept, sample_keep, is_sun_blocked.
  rewrite Ho. cbn [bind]. intro H.
  apply negb_true_iff in H. apply Qlt_bool_iff.
  assert (Hlt : o < altitude pos).
  { apply Qlt_bool_iff. unfold Qlt_bool. now rewrite H. }
  lra.
Qed.

Section Composer.

Variable provider : Q -> Q -> Q -> Z -> Q * Q.

(** On a usable terrain the Composer returns a report for every location
    and date, built from the kept positions. *)
Lemma predict_sunlight_loss_report (latitude longitude elevation : Q)
    (date : Z) (terrain_file : option TerrainFile) :
  usable_terrain terrain_file ->
  let solar_positions :=
    kept_positions provider latitude longitude elevation date terrain_file in
  predict_sunlight_loss provider latitude longitude elevation date terrain_file
  = Ok (mkPrediction
          (latitude, longitude, elevation) date
          (0 <? length solar_positions)%nat
          (option_map time (hd_error solar_positions))
          (option_map altitude (hd_error solar_positions))
          (option_map azimuth (hd_error solar_positions))
          (option_map time (hd_error (rev solar_positions)))
          (option_map altitude (hd_error (rev solar_positions)))
          (option_map azimuth (hd_error (rev solar_positions)))
          (match terrain_file with Some _ => true | None => false end)).
Proof.
  intros Hu solar_positions. unfold predict_sunlight_loss.
  assert (Hend : (replace_hour date 0 + hours 24
                  = replace_hour date 0 + Z.of_nat 1440 * MINUTE)%Z)
    by (unfold hours, HOUR, MINUTE, SECOND; lia).
  rewrite Hend, sample_loop_spec.
  - cbn [bind app]. unfold solar_positions, kept_positions. reflexivity.
  - lia.
  - intros pos _. unfold sample_keep.
    destruct terrain_file as [data|]; [|eauto].
    destruct Hu as [Hne Hn].
    destruct (is_sun_blocked_total (load_from_file init data)
                (altitude pos) (azimuth pos) Hne Hn) as [b Hb].
    rewrite Hb. cbn [bind]. eauto.
Qed.

End Composer.

(** ** Claims on the crossing searches and the Composer *)

(** C2 (defect in the code): with a terrain file the sampling loop keeps
    every position that the terrain does not block and drops the test
    [altitude > 0] of the other branch.  For a sun above the horizon from
    08:00 to 16:00 and a terrain sample 10 degrees below the horizontal,
    the window without terrain lasts 478 minutes (08:01 to 15:59) and the
    window with terrain 878 minutes (04:41 to 19:19), and it opens with
    the sun 9.95 degrees below the horizon. *)
Theorem terrain_window_longer :
  exists r0 r1,
    predict_sunlight_loss low_sun 0 0 0 test_date None = Ok r0 /\
    predict_sunlight_loss low_sun 0 0 0 test_date (Some valley_file) = Ok r1 /\
    window_duration r0 = Some (minutes 478) /\
    window_duration r1 = Some (minutes 878) /\
    first_direct_sunlight r0 = Some (at_ordinal 739665 8 1) /\
    first_direct_sunlight r1 = Some (at_ordinal 739665 4 41) /\
    (exists a, sun_altitude_at_rise r1 = Some a /\ a == -199 # 20).
Proof.
  eexists. eexists.
  split; [vm_compute; reflexivity|].
  split; [vm_compute; reflexivity|].
  split; [vm_compute; reflexivity|].
  split; [vm_compute; reflexivity|].
  split; [vm_compute; reflexivity|].
  split; [vm_compute; reflexivity|].
  eexists. split; [vm_compute; reflexivity|reflexivity].
Qed.

(** C3 (defect in the code): on the bracket of a backward scan
    [time_after] is earlier than [time_before], the loop condition
    [(time_after - time_before).total_seconds() > 1] is false at once and
    the bracket is returned one hour wide.  For a sun that rises through
    -6 degrees at 06:30 and at no other instant, the dawn search brackets
    (07:00, 06:00) and returns 06:00, 1800 seconds from the crossing. *)
Theorem backward_bracket_not_refined :
  _find_altitude_crossing dawn_rise test_calc (test_date - days 1) (-6) false
  = Ok (Some (at_ordinal 739664 6 0)) /\
  _binary_search_altitude_crossing dawn_rise test_calc
    (at_ordinal 739664 7 0) (at_ordinal 739664 6 0) (-6) 1
  = Ok (at_ordinal 739664 6 0) /\
  (forall t, fst (dawn_rise 0 0 0 t) == -6 <-> t = at_ordinal 739664 6 30) /\
  (at_ordinal 739664 6 30 - at_ordinal 739664 6 0 = 1800 * SECOND)%Z.
Proof.
  split; [vm_compute; reflexivity|].
  split; [vm_compute; reflexivity|].
  split; [|reflexivity].
  intro t. unfold dawn_rise. cbn [fst].
  set (x := (t - at_ordinal 739664 6 30)%Z).
  assert (Hx : -6 + 10 * (inject_Z x / inject_Z HOUR) == -6 <-> x = 0%Z).
  { rewrite <- (inject_Z_injective x 0). change (inject_Z 0) with 0.
    assert (Hc : inject_Z x == inject_Z x / inject_Z HOUR * 3600000000).
    { change (inject_Z HOUR) with 3600000000. field. }
    set (X := inject_Z x) in *. set (Y := X / inject_Z HOUR) in *.
    split; intro H; lra. }
  rewrite Hx. unfold x. lia.
Qed.

(** C8 (counterexample): under a sun that stays 10 degrees above the
    horizon both crossing searches find no sign change and return [None],
    and the Composer reports [has_sunlight = True] with the first and last
    minute of the day. *)
Lemma no_crossing_with_sunlight :
  find_sunset_time polar_day test_calc test_date 1 = Ok None /\
  _find_altitude_crossing polar_day test_calc test_date (-6) true = Ok None /\
  _find_altitude_crossing polar_day test_calc (test_date - days 1) (-6) false
  = Ok None /\
  exists r,
    predict_sunlight_loss polar_day 0 0 0 test_date None = Ok r /\
    has_sunlight r = true /\
    first_direct_sunlight r = Some test_date /\
    last_direct_sunlight r = Some (test_date + minutes 1439)%Z.
Proof.
  split; [vm_compute; reflexivity|].
  split; [vm_compute; reflexivity|].
  split; [vm_compute; reflexivity|].
  eexists. split; [vm_compute; reflexivity|].
  repeat split; vm_compute; reflexivity.
Qed.


(** C8 (amended): for a datetime [dt] whose scans stay inside the range
    of [datetime], a crossing search ([_find_altitude_crossing], and
    [find_sunset_time] with a step of 1 to 60 minutes) returns without
    raising, and returns [None] when no pair of consecutive samples closes
    a bracket within its scan bound.  The Composer does not call the
    searches: for a [date] whose day is not the last one of [datetime] and
    on a usable terrain it returns a report, with [has_sunlight = False]
    exactly when it kept no position, and then all six dependent fields
    are [None]; without a terrain file that is exactly when no sample of
    the day is above the horizon. *)
Theorem no_crossing_is_absent (provider : Q -> Q -> Q -> Z -> Q * Q)
    (latitude longitude elevation : Q) (dt date : Z) (target : Q)
    (search_forward : bool) (step_minutes : Z)
    (terrain_file : option TerrainFile) :
  (1 <= step_minutes <= 60)%Z ->
  scan_in_range dt ->
  sweep_in_range date ->
  usable_terrain terrain_file ->
  let self := mkSolarCalculator latitude longitude elevation in
  let solar_positions :=
    kept_positions provider latitude longitude elevation date terrain_file in
  (exists o,
     _find_altitude_crossing provider self dt target search_forward = Ok o) /\
  (exists o, find_sunset_time provider self dt step_minutes = Ok o) /\
  (forall k,
     twilight_scan_passed provider self dt target search_forward k ->
     ~ twilight_diff provider self dt target search_forward k
       * twilight_diff provider self dt target search_forward (S k) <= 0 ->
     (1 < Z.abs (td_days (twilight_time dt search_forward (S k) - dt)))%Z ->
     _find_altitude_crossing provider self dt target search_forward
     = Ok None) /\
  (forall k,
     sunset_scan_passed provider self dt step_minutes k ->
     ~ (0 < sunset_altitude provider self dt step_minutes k /\
        sunset_altitude provider self dt step_minutes (S k) <= 0) ->
     (23 <= hour (sunset_time dt step_minutes (S k)))%Z ->
     find_sunset_time provider self dt step_minutes = Ok None) /\
  exists r,
    predict_sunlight_loss provider latitude longitude elevation date
                          terrain_file = Ok r /\
    (has_sunlight r = false <-> solar_positions = []) /\
    (has_sunlight r = false ->
     first_direct_sunlight r = None /\ sun_altitude_at_rise r = None /\
     sun_azimuth_at_rise r = None /\ last_direct_sunlight r = None /\
     sun_altitude_at_loss r = None /\ sun_azimuth_at_loss r = None) /\
    (terrain_file = None ->
     (has_sunlight r = false <->
      forall pos,
        In pos (minute_samples provider self (replace_hour date 0) 1440) ->
        altitude pos <= 0)).
Proof.
  intros Hstep _ _ Hu self solar_positions.
  split; [apply find_altitude_crossing_total|].
  split; [now apply find_sunset_time_total|].
  split; [intro k; apply find_altitude_crossing_none|].
  split; [intro k; now apply find_sunset_time_none|].
  eexists. split; [now apply predict_sunlight_loss_report|].
  fold solar_positions. cbn [has_sunlight first_direct_sunlight
    sun_altitude_at_rise sun_azimuth_at_rise last_direct_sunlight
    sun_altitude_at_loss sun_azimuth_at_loss].
  assert (Hnil : (0 <? length solar_positions)%nat = false
                 <-> solar_positions = []).
  { destruct solar_positions; simpl; split; intro H; try reflexivity;
      discriminate H. }
  split; [exact Hnil|]. split.
  - intro H. apply Hnil in H. rewrite H. simpl. repeat split.
  - intros ->. rewrite Hnil. unfold solar_positions, kept_positions.
    rewrite filter_nil_iff. fold self.
    split; intros H pos Hpos; specialize (H pos Hpos).
    + now apply Qlt_bool_false.
    + now apply Qlt_bool_false.
Qed.

Lemma no_crossing_is_absent_witness :
  (1 <= 1 <= 60)%Z /\ scan_in_range test_date /\ sweep_in_range test_date /\
  usable_terrain None /\
  exists r,
    predict_sunlight_loss polar_night 0 0 0 test_date None = Ok r /\
    has_sunlight r = false /\ first_direct_sunlight r = None.
Proof.
  assert (Hs : (1 <= 1 <= 60)%Z) by lia.
  assert (Hscan : scan_in_range test_date) by (split; vm_compute; discriminate).
  assert (Hsweep : sweep_in_range test_date)
    by (split; vm_compute; discriminate).
  assert (Hu : usable_terrain None) by exact I.
  split; [exact Hs|]. split; [exact Hscan|]. split; [exact Hsweep|].
  split; [exact Hu|].
  destruct (no_crossing_is_absent polar_night 0 0 0 test_date test_date (-6)
              true 1 None Hs Hscan Hsweep Hu)
    as (_ & _ & _ & _ & r & Hr & _ & Hnone & Hiff).
  assert (Hf : has_sunlight r = false).
  { apply (Hiff eq_refl). intros pos Hpos.
    apply in_map_iff in Hpos. destruct Hpos as (k & <- & _).
    simpl. discriminate. }
  exists r. split; [exact Hr|]. split; [exact Hf|].
  apply (Hnone Hf).
Defined.



(** * Further properties of the code *)

(** ** Further properties of the terrain model *)

Lemma dict_find_setitem (d : dict) (k v k' : Q) :
  dict_find (dict_setitem d k v) k'
  = if Qeq_bool k k' then Some v else dict_find d k'.
Proof.
  induction d as [|[k0 v0] d IH]; simpl; [reflexivity|].
  destruct (Qeq_bool k0 k) eqn:E0; simpl.
  - apply Qeq_bool_iff in E0. rewrite <- E0.
    destruct (Qeq_bool k0 k'); reflexivity.
  - rewrite IH. destruct (Qeq_bool k0 k') eqn:E1; [|reflexivity].
    destruct (Qeq_bool k k') eqn:E2; [|reflexivity].
    apply Qeq_bool_iff in E1, E2. apply Qeq_bool_neq in E0.
    exfalso. apply E0. now rewrite E1, E2.
Qed.

Lemma dict_setitem_length (d : dict) (k v : Q) :
  length (dict_setitem d k v)
  = if dict_contains d k then length d else S (length d).
Proof.
  unfold dict_contains.
  induction d as [|[k0 v0] d IH]; simpl; [reflexivity|].
  destruct (Qeq_bool k0 k); simpl; [reflexivity|].
  rewrite IH. destruct (dict_find d k); reflexivity.
Qed.

Lemma dict_keys_setitem_InA (d : dict) (k v a : Q) :
  InA Qeq a (dict_keys (dict_setitem d k v)) ->
  a == k \/ InA Qeq a (dict_keys d).
Proof.
  intro H. apply InA_alt in H. destruct H as (b & Hab & Hb).
  apply dict_keys_setitem in Hb. destruct Hb as [->|Hb]; [now left|].
  right. apply InA_alt. now exists b.
Qed.

Lemma dict_setitem_distinct (d : dict) (k v : Q) :
  distinct_keys d -> distinct_keys (dict_setitem d k v).
Proof.
  unfold distinct_keys.
  induction d as [|[k0 v0] d IH]; simpl; intro H.
  - constructor; [|constructor]. intro Hin. inversion Hin.
  - inversion H as [|? ? Hnin Hnd]; subst.
    destruct (Qeq_bool k0 k) eqn:E; simpl.
    + now constructor.
    + constructor; [|now apply IH].
      intro Hin. apply dict_keys_setitem_InA in Hin.
      destruct Hin as [Hk|Hin]; [|contradiction].
      apply Qeq_bool_neq in E. contradiction.
Qed.

(** X1: a point added with [add_elevation_point] is found again: the
    lookup at the same azimuth, or at any azimuth that differs from it by
    whole turns, returns its elevation angle, whatever the profile held. *)
Theorem add_then_lookup (self : TerrainProfile) (az el q : Q) :
  float_mod q 360 == float_mod az 360 ->
  get_obstruction_angle (add_elevation_point self az el) q = Ok el.
Proof.
  intro H. apply get_obstruction_angle_hit.
  unfold add_elevation_point. cbn [elevations].
  rewrite dict_find_setitem.
  apply Qeq_eq_bool in H. rewrite Qeq_bool_comm in H. now rewrite H.
Qed.

Lemma add_then_lookup_witness :
  float_mod 405 360 == float_mod 45 360 /\
  get_obstruction_angle (add_elevation_point two_point_profile 45 10) 405
  = Ok 10.
Proof.
  assert (H : float_mod 405 360 == float_mod 45 360) by reflexivity.
  split; [exact H|].
  exact (add_then_lookup two_point_profile 45 10 405 H).
Defined.

(** X2: [add_elevation_point] changes one sample only: every other
    azimuth keeps its stored value, and the number of samples grows by one
    when the normalised azimuth is new and stays the same when it replaces
    a sample. *)
Theorem add_elevation_point_frame (self : TerrainProfile) (az el : Q) :
  (forall k, ~ k == float_mod az 360 ->
     dict_find (elevations (add_elevation_point self az el)) k
     = dict_find (elevations self) k) /\
  length (elevations (add_elevation_point self az el))
  = (if dict_contains (elevations self) (float_mod az 360)
     then length (elevations self)
     else S (length (elevations self))) /\
  reference_elevation (add_elevation_point self az el)
  = reference_elevation self.
Proof.
  unfold add_elevation_point. cbn [elevations reference_elevation].
  split; [|split; [apply dict_setitem_length|reflexivity]].
  intros k Hk. rewrite dict_find_setitem.
  destruct (Qeq_bool (float_mod az 360) k) eqn:E; [|reflexivity].
  apply Qeq_bool_iff in E. exfalso. apply Hk. now symmetry.
Qed.

Lemma add_elevation_points_invariant (points : list (Q * Q)) :
  forall self,
    normalized self -> distinct_keys (elevations self) ->
    normalized (add_elevation_points self points) /\
    distinct_keys (elevations (add_elevation_points self points)) /\
    (points <> [] -> elevations (add_elevation_points self points) <> []).
Proof.
  unfold add_elevation_points.
  induction points as [|[az el] points IH]; intros self Hn Hd; simpl.
  - split; [assumption|]. split; [assumption|].
    intro Hnil. exfalso. now apply Hnil.
  - destruct (IH (add_elevation_point self az el)) as (Hn' & Hd' & Hne').
    + now apply add_elevation_point_normalized.
    + unfold add_elevation_point. cbn [elevations].
      now apply dict_setitem_distinct.
    + split; [exact Hn'|]. split; [exact Hd'|]. intros _.
      destruct points as [|p points]; [|apply Hne'; discriminate].
      simpl. unfold add_elevation_point. cbn [elevations].
      destruct (elevations self) as [|[k0 v0] d]; simpl; [discriminate|].
      destruct (Qeq_bool k0 (float_mod az 360)); discriminate.
Qed.

(** X3: a profile built from the empty one by one or more calls of
    [add_elevation_point], each with an azimuth that is not negative (so
    that [% 360] is computed without rounding), has its azimuths in
    [[0, 360)], pairwise different, and both the lookup and
    [is_sun_blocked] return on it for every query: they never raise. *)
Theorem built_profile_is_total (points : list (Q * Q)) (alt q : Q) :
  points <> [] ->
  Forall (fun point => 0 <= fst point) points ->
  let terrain := add_elevation_points init points in
  normalized terrain /\ distinct_keys (elevations terrain) /\
  (exists o, get_obstruction_angle terrain q = Ok o) /\
  (exists b, is_sun_blocked terrain alt q = Ok b).
Proof.
  intros Hne _ terrain.
  destruct (add_elevation_points_invariant points init) as (Hn & Hd & He).
  - intros k [].
  - constructor.
  - split; [exact Hn|]. split; [exact Hd|]. split.
    + apply get_obstruction_angle_total; auto.
    + apply is_sun_blocked_total; auto.
Qed.

Lemma built_profile_is_total_witness :
  [(45, 10); (405, 12); (270, 3)] <> [] /\
  Forall (fun point => 0 <= fst point) [(45, 10); (405, 12); (270, 3)] /\
  exists b,
    is_sun_blocked (add_elevation_points init [(45, 10); (405, 12); (270, 3)])
                   5 100 = Ok b.
Proof.
  assert (H : [(45, 10); (405, 12); (270, 3)] <> []) by discriminate.
  assert (H0 : Forall (fun point => 0 <= fst point)
                      [(45, 10); (405, 12); (270, 3)])
    by (repeat constructor; discriminate).
  split; [exact H|]. split; [exact H0|].
  exact (proj2 (proj2 (proj2
    (built_profile_is_total [(45, 10); (405, 12); (270, 3)] 5 100 H H0)))).
Defined.

Lemma load_fold_other (data : list (Q * Q)) (k : Q) :
  forall acc,
    (forall kv, In kv data -> ~ fst kv == k) ->
    dict_find (fold_left (fun d kv => dict_setitem d (fst kv) (snd kv)) data acc) k
    = dict_find acc k.
Proof.
  induction data as [|[k0 v0] data IH]; intros acc H; simpl; [reflexivity|].
  rewrite IH by (intros kv Hkv; apply H; now right).
  rewrite dict_find_setitem. simpl.
  destruct (Qeq_bool k0 k) eqn:E; [|reflexivity].
  apply Qeq_bool_iff in E. exfalso. apply (H (k0, v0)); [now left|exact E].
Qed.

Lemma load_fold_find (data : list (Q * Q)) (k v : Q) :
  forall acc,
    NoDupA Qeq (map fst data) -> In (k, v) data ->
    dict_find (fold_left (fun d kv => dict_setitem d (fst kv) (snd kv)) data acc) k
    = Some v.
Proof.
  induction data as [|[k0 v0] data IH]; intros acc Hnd Hin; [destruct Hin|].
  simpl in Hnd. inversion Hnd as [|? ? Hnin Hnd']; subst.
  destruct Hin as [Heq|Hin].
  - injection Heq as -> ->. simpl.
    rewrite load_fold_other.
    + rewrite dict_find_setitem. now rewrite Qeq_bool_refl.
    + intros kv Hkv Heq. apply Hnin. apply InA_alt.
      exists (fst kv). split; [now symmetry|]. now apply in_map.
  - simpl. now apply IH.
Qed.

Lemma load_fold_keys (data : list (Q * Q)) (a : Q) :
  forall acc,
    In a (dict_keys
            (fold_left (fun d kv => dict_setitem d (fst kv) (snd kv)) data acc)) ->
    In a (map fst data) \/ In a (dict_keys acc).
Proof.
  induction data as [|[k0 v0] data IH]; intros acc H; simpl in *; [now right|].
  destruct (IH _ H) as [Hd|Ha]; [left; now right|].
  apply dict_keys_setitem in Ha. destruct Ha as [->|Ha]; [left; now left|now right].
Qed.

Lemma load_fold_distinct (data : list (Q * Q)) :
  forall acc,
    distinct_keys acc ->
    distinct_keys
      (fold_left (fun d kv => dict_setitem d (fst kv) (snd kv)) data acc).
Proof.
  induction data as [|[k0 v0] data IH]; intros acc H; simpl; [assumption|].
  apply IH. now apply dict_setitem_distinct.
Qed.

Lemma dict_setitem_nonempty (d : dict) (k v : Q) : dict_setitem d k v <> [].
Proof.
  destruct d as [|[k0 v0] d]; simpl; [discriminate|].
  destruct (Qeq_bool k0 k); discriminate.
Qed.

Lemma load_fold_nonempty (data : list (Q * Q)) :
  forall acc,
    acc <> [] ->
    fold_left (fun d kv => dict_setitem d (fst kv) (snd kv)) data acc <> [].
Proof.
  induction data as [|[k0 v0] data IH]; intros acc H; simpl; [assumption|].
  apply IH. apply dict_setitem_nonempty.
Qed.

(** X4: [load_from_dict] followed by a lookup gives the data back: when
    the keys of the data are pairwise different numbers, every item
    [(k, v)] with [k] in [[0, 360)] is returned by the lookup at [k],
    whatever the profile held before. *)
Theorem load_from_dict_lookup (self : TerrainProfile) (data : list (Q * Q))
    (reference k v : Q) :
  NoDupA Qeq (map fst data) -> In (k, v) data -> 0 <= k -> k < 360 ->
  get_obstruction_angle (load_from_dict self data reference) k = Ok v.
Proof.
  intros Hnd Hin H0 H360. apply get_obstruction_angle_hit.
  unfold load_from_dict. cbn [elevations].
  rewrite (dict_find_compat _ (float_mod k 360) k)
    by (now apply float_mod_small).
  now apply load_fold_find.
Qed.

Lemma load_from_dict_lookup_witness :
  NoDupA Qeq (map fst [(0, 5); (90, 20); (180, 10)]) /\
  In (90, 20) [(0, 5); (90, 20); (180, 10)] /\ 0 <= 90 /\ 90 < 360 /\
  get_obstruction_angle
    (load_from_dict two_point_profile [(0, 5); (90, 20); (180, 10)] 1500) 90
  = Ok 20.
Proof.
  assert (Hnd : NoDupA Qeq (map fst [(0, 5); (90, 20); (180, 10)])).
  { simpl. repeat constructor; intro H;
      repeat (inversion H as [? ? Hq|? ? H']; subst;
              [discriminate Hq|clear H; rename H' into H]); inversion H. }
  assert (Hin : In (90, 20) [(0, 5); (90, 20); (180, 10)])
    by (simpl; right; now left).
  assert (H0 : 0 <= 90) by discriminate.
  assert (H1 : 90 < 360) by reflexivity.
  split; [exact Hnd|]. split; [exact Hin|]. split; [exact H0|].
  split; [exact H1|].
  exact (load_from_dict_lookup two_point_profile _ 1500 90 20 Hnd Hin H0 H1).
Defined.

(** X5: a terrain file with at least one sample and all its azimuths in
    [[0, 360)] loads to a profile on which the lookup and [is_sun_blocked]
    return for every query; the stored azimuths are those of the file and
    pairwise different, and the reference elevation defaults to 0. *)
Theorem load_from_file_in_range (self : TerrainProfile)
    (data : list (Q * Q)) (reference : option Q) (alt q : Q) :
  data <> [] ->
  (forall kv, In kv data -> 0 <= fst kv /\ fst kv < 360) ->
  let terrain := load_from_file self (mkTerrainFile (Some data) reference) in
  normalized terrain /\ distinct_keys (elevations terrain) /\
  (forall a, In a (dict_keys (elevations terrain)) -> In a (map fst data)) /\
  reference_elevation terrain
  = (match reference with Some r => r | None => 0 end) /\
  (exists o, get_obstruction_angle terrain q = Ok o) /\
  (exists b, is_sun_blocked terrain alt q = Ok b).
Proof.
  intros Hne Hrange terrain.
  assert (Hkeys : forall a, In a (dict_keys (elevations terrain)) ->
                            In a (map fst data)).
  { intros a Ha. unfold terrain, load_from_file, load_from_dict in Ha.
    cbn [elevations file_elevations] in Ha.
    apply load_fold_keys in Ha. destruct Ha as [Ha|[]]. exact Ha. }
  assert (Hn : normalized terrain).
  { intros a Ha. apply Hkeys in Ha. apply in_map_iff in Ha.
    destruct Ha as (kv & <- & Hkv). now apply Hrange. }
  assert (He : elevations terrain <> []).
  { unfold terrain, load_from_file, load_from_dict.
    cbn [elevations file_elevations].
    destruct data as [|[k0 v0] data]; [contradiction|]. simpl.
    apply load_fold_nonempty. discriminate. }
  split; [exact Hn|]. split.
  { unfold terrain, load_from_file, load_from_dict.
    cbn [elevations file_elevations]. apply load_fold_distinct. constructor. }
  split; [exact Hkeys|]. split; [reflexivity|]. split.
  - now apply get_obstruction_angle_total.
  - now apply is_sun_blocked_total.
Qed.

Lemma load_from_file_in_range_witness :
  [(0, 0); (90, 20)] <> [] /\
  (forall kv, In kv [(0, 0); (90, 20)] -> 0 <= fst kv /\ fst kv < 360) /\
  exists b,
    is_sun_blocked
      (load_from_file init (mkTerrainFile (Some [(0, 0); (90, 20)]) None))
      5 300 = Ok b.
Proof.
  assert (Hne : [(0, 0); (90, 20)] <> []) by discriminate.
  assert (Hr : forall kv, In kv [(0, 0); (90, 20)] ->
                          0 <= fst kv /\ fst kv < 360).
  { intros kv [<-|[<-|[]]]; simpl; split; try discriminate; reflexivity. }
  split; [exact Hne|]. split; [exact Hr|].
  exact (proj2 (proj2 (proj2 (proj2 (proj2
    (load_from_file_in_range init _ None 5 300 Hne Hr)))))).
Defined.

Lemma fraction_unit (x d : Q) : 0 <= x -> x <= d -> 0 < d ->
  0 <= x / d /\ x / d <= 1.
Proof.
  intros H0 H1 Hd. split.
  - apply Qle_shift_div_l; [assumption|]. lra.
  - apply Qle_shift_div_r; [assumption|]. lra.
Qed.

(** The cases of the lookup on a non-empty profile with normalised
    azimuths: the value returned is the value on the segment between two
    stored values [el1], [el2] at a fraction [f] in [[0, 1]] (both ends are
    the same stored value on an exact hit and below the smallest
    azimuth). *)
Lemma get_obstruction_angle_cases (self : TerrainProfile) (q : Q) :
  elevations self <> [] -> normalized self ->
  exists o a1 a2 el1 el2 f,
    get_obstruction_angle self q = Ok o /\
    dict_find (elevations self) a1 = Some el1 /\
    dict_find (elevations self) a2 = Some el2 /\
    0 <= f /\ f <= 1 /\ o == el1 + f * (el2 - el1).
Proof.
  intros Hne Hn.
  destruct (float_mod_range q 360 ltac:(reflexivity)) as [Hq0 Hq360].
  destruct (dict_find (elevations self) (float_mod q 360)) as [v|] eqn:Hf.
  { exists v, (float_mod q 360), (float_mod q 360), v, v, 0.
    split; [now apply get_obstruction_angle_hit|].
    repeat split; try assumption; try discriminate; try ring. }
  pose proof (proj1 (dict_find_None _ _) Hf) as Hnk.
  set (L := sorted (dict_keys (elevations self))).
  assert (HLne : L <> []).
  { intro H. apply sorted_nil_inv in H. apply Hne.
    unfold dict_keys in H. now apply map_eq_nil in H. }
  assert (Hneq : forall a, In a L -> ~ a == float_mod q 360).
  { intros a Ha. apply Hnk. now apply sorted_In. }
  destruct (first_greater L (float_mod q 360) 0) as [j|] eqn:Hfg.
  - destruct (first_greater_Some _ _ _ _ Hfg)
      as (pre & az & post & HL & _ & Hall & Hlt).
    destruct pre as [|a0 pre0].
    + destruct (get_obstruction_angle_before self q az post HL Hlt)
        as (v & Hfv & Hv).
      exists v, az, az, v, v, 0.
      repeat split; try assumption; try discriminate; try ring.
    + destruct (list_last_split (a0 :: pre0)) as (pre' & az1 & Hpre);
        [discriminate|].
      rewrite Hpre in HL, Hall. rewrite <- app_assoc in HL. simpl in HL.
      apply Forall_app in Hall. destruct Hall as [_ Haz1].
      inversion Haz1 as [|? ? Hle _]; subst.
      assert (Hlt1 : az1 < float_mod q 360).
      { apply Qle_lteq in Hle. destruct Hle as [Hle|Heq]; [assumption|].
        exfalso. apply (Hneq az1); [|assumption].
        change (In az1 L). rewrite HL. apply in_or_app. right. now left. }
      destruct (get_obstruction_angle_between self q az1 az pre' post HL Hlt1 Hlt)
        as (el1 & el2 & H1 & H2 & Hv).
      destruct (fraction_unit (float_mod q 360 - az1) (az - az1))
        as [Hf0 Hf1]; try lra.
      exists (el1 + (float_mod q 360 - az1) / (az - az1) * (el2 - el1)),
             az1, az, el1, el2, ((float_mod q 360 - az1) / (az - az1)).
      repeat split; try assumption; try reflexivity.
  - apply first_greater_None in Hfg.
    destruct (list_last_split L HLne) as (pre & amax & Hmax).
    destruct L as [|amin rest] eqn:HL; [contradiction|].
    assert (Hinmax : In amax (amin :: rest)).
    { rewrite Hmax. apply in_or_app. right. now left. }
    assert (Hlt : amax < float_mod q 360).
    { rewrite Forall_forall in Hfg. specialize (Hfg amax Hinmax).
      apply Qle_lteq in Hfg. destruct Hfg as [Hlt|Heq]; [assumption|].
      exfalso. now apply (Hneq amax). }
    assert (Hmax' : L = pre ++ [amax]) by (now rewrite HL).
    destruct (get_obstruction_angle_after self q amin amax pre rest Hn HL Hmax' Hlt)
      as (el1 & el2 & H1 & H2 & Hv).
    assert (Hamin : 0 <= amin).
    { apply (Hn amin). apply sorted_In. fold L. rewrite HL. now left. }
    assert (Hamax : amax < 360).
    { apply (Hn amax). apply sorted_In. fold L. now rewrite HL. }
    destruct (fraction_unit (float_mod q 360 - amax) (360 + amin - amax))
      as [Hf0 Hf1]; try lra.
    exists (el1 + (float_mod q 360 - amax) / (360 + amin - amax) * (el2 - el1)),
           amax, amin, el1, el2,
           ((float_mod q 360 - amax) / (360 + amin - amax)).
    repeat split; try assumption; try reflexivity.
Qed.

(** X6: the lookup keeps the sign of the terrain: on a non-empty profile
    with azimuths in [[0, 360)], when no stored obstruction angle is
    negative the obstruction angle is negative at no azimuth, and when none
    is positive it is positive at no azimuth. *)
Theorem get_obstruction_angle_keeps_sign (self : TerrainProfile) (q : Q) :
  elevations self <> [] -> normalized self ->
  exists o,
    get_obstruction_angle self q = Ok o /\
    ((forall k v, dict_find (elevations self) k = Some v -> 0 <= v) ->
     0 <= o) /\
    ((forall k v, dict_find (elevations self) k = Some v -> v <= 0) ->
     o <= 0).
Proof.
  intros Hne Hn.
  destruct (get_obstruction_angle_cases self q Hne Hn)
    as (o & a1 & a2 & el1 & el2 & f & Ho & H1 & H2 & Hf0 & Hf1 & Heq).
  exists o. split; [exact Ho|]. split; intro Hb.
  - pose proof (Hb _ _ H1). pose proof (Hb _ _ H2). rewrite Heq. nra.
  - pose proof (Hb _ _ H1). pose proof (Hb _ _ H2). rewrite Heq. nra.
Qed.

Lemma two_point_values (k v : Q) :
  dict_find (elevations two_point_profile) k = Some v -> 0 <= v.
Proof.
  simpl. destruct (Qeq_bool 0 k); [intros [= <-]; discriminate|].
  destruct (Qeq_bool 90 k); [intros [= <-]; discriminate|discriminate].
Qed.

Lemma get_obstruction_angle_keeps_sign_witness :
  elevations two_point_profile <> [] /\ normalized two_point_profile /\
  (forall k v, dict_find (elevations two_point_profile) k = Some v ->
               0 <= v) /\
  exists o, get_obstruction_angle two_point_profile 200 = Ok o /\ 0 <= o.
Proof.
  assert (Hne : elevations two_point_profile <> []) by discriminate.
  assert (Hn : normalized two_point_profile)
    by (apply normalizedb_sound; reflexivity).
  split; [exact Hne|]. split; [exact Hn|]. split; [exact two_point_values|].
  destruct (get_obstruction_angle_keeps_sign two_point_profile 200 Hne Hn)
    as (o & Ho & Hpos & _).
  exists o. split; [exact Ho|exact (Hpos two_point_values)].
Defined.

(** X8: [is_sun_blocked] is monotone in the altitude: a sun that is
    blocked stays blocked at every lower altitude at the same azimuth, and
    a sun that is visible stays visible at every higher altitude. *)
Theorem is_sun_blocked_monotone (self : TerrainProfile) (alt alt' az : Q) :
  alt' <= alt ->
  (is_sun_blocked self alt az = Ok true ->
   is_sun_blocked self alt' az = Ok true) /\
  (is_sun_blocked self alt' az = Ok false ->
   is_sun_blocked self alt az = Ok false).
Proof.
  intro Hle. unfold is_sun_blocked.
  destruct (get_obstruction_angle self az) as [o| |]; simpl;
    try (split; discriminate).
  split.
  - intros [= H]. apply Qle_bool_iff in H.
    assert (H' : Qle_bool alt' o = true)
      by (apply Qle_bool_iff; eapply Qle_trans; eassumption).
    now rewrite H'.
  - intros [= H].
    destruct (Qle_bool alt o) eqn:E; [|reflexivity].
    apply Qle_bool_iff in E.
    assert (H' : Qle_bool alt' o = true)
      by (apply Qle_bool_iff; eapply Qle_trans; eassumption).
    congruence.
Qed.

Lemma is_sun_blocked_monotone_witness :
  3 <= 5 /\ is_sun_blocked two_point_profile 3 45 = Ok true.
Proof.
  assert (H : 3 <= 5) by discriminate.
  split; [exact H|].
  apply (proj1 (is_sun_blocked_monotone two_point_profile 5 3 45 H)).
  vm_compute. reflexivity.
Defined.

(** ** The last unobstructed position *)

Lemma find_unobstructed_loop_spec (self : TerrainProfile)
    (positions : list SolarPosition) :
  forall last r,
    find_unobstructed_loop self positions last = Ok r ->
    (r = last /\
     forall p, In p positions ->
       is_sun_blocked self (altitude p) (azimuth p) = Ok true) \/
    (exists l1 p l2,
       positions = l1 ++ p :: l2 /\ r = Some p /\
       is_sun_blocked self (altitude p) (azimuth p) = Ok false /\
       forall p', In p' l2 ->
         is_sun_blocked self (altitude p') (azimuth p') = Ok true).
Proof.
  induction positions as [|p0 positions IH]; intros last r H; simpl in H.
  - left. split; [congruence|]. intros p [].
  - destruct (is_sun_blocked self (altitude p0) (azimuth p0))
      as [b| |] eqn:Hb; simpl in H; try discriminate.
    destruct (IH _ _ H) as [[Hr Hall]|(l1 & p & l2 & Hl & Hr & Hp & Hall)].
    + destruct b; simpl in Hr.
      * left. split; [exact Hr|]. intros p [<-|Hp]; auto.
      * right. exists [], p0, positions. repeat split; auto.
    + right. exists (p0 :: l1), p, l2. repeat split; auto.
      simpl. now rewrite Hl.
Qed.

(** X9: what [find_unobstructed_sunset] returns is the last position of
    the list that the terrain does not block: every position after it is
    blocked; it returns [None] only when every position is blocked. *)
Theorem find_unobstructed_sunset_is_last (self : TerrainProfile)
    (positions : list SolarPosition) (r : option SolarPosition) :
  find_unobstructed_sunset self positions = Ok r ->
  match r with
  | Some p =>
      exists l1 l2,
        positions = l1 ++ p :: l2 /\
        is_sun_blocked self (altitude p) (azimuth p) = Ok false /\
        forall p', In p' l2 ->
          is_sun_blocked self (altitude p') (azimuth p') = Ok true
  | None =>
      forall p, In p positions ->
        is_sun_blocked self (altitude p) (azimuth p) = Ok true
  end.
Proof.
  intro H. unfold find_unobstructed_sunset in H.
  destruct (find_unobstructed_loop_spec self positions None r H)
    as [[-> Hall]|(l1 & p & l2 & Hl & -> & Hp & Hall)].
  - exact Hall.
  - now exists l1, l2.
Qed.

Lemma find_unobstructed_sunset_is_last_witness :
  let terrain := load_from_dict init [(0, 5)] 0 in
  let positions :=
    [mkSolarPosition 20 0 16; mkSolarPosition 10 0 17; mkSolarPosition 3 0 18]
  in
  find_unobstructed_sunset terrain positions = Ok (Some (mkSolarPosition 10 0 17))
  /\ exists l1 l2,
       positions = l1 ++ mkSolarPosition 10 0 17 :: l2 /\
       forall p', In p' l2 ->
         is_sun_blocked terrain (altitude p') (azimuth p') = Ok true.
Proof.
  intros terrain positions.
  assert (H : find_unobstructed_sunset terrain positions
              = Ok (Some (mkSolarPosition 10 0 17))) by reflexivity.
  split; [exact H|].
  destruct (find_unobstructed_sunset_is_last terrain positions _ H)
    as (l1 & l2 & Hl & _ & Hall).
  now exists l1, l2.
Defined.

Lemma find_unobstructed_loop_total (self : TerrainProfile)
    (positions : list SolarPosition) :
  elevations self <> [] -> normalized self ->
  forall last, exists r, find_unobstructed_loop self positions last = Ok r.
Proof.
  intros Hne Hn.
  induction positions as [|p positions IH]; intro last; simpl.
  - now exists last.
  - destruct (is_sun_blocked_total self (altitude p) (azimuth p) Hne Hn)
      as [b Hb].
    rewrite Hb. simpl. apply IH.
Qed.

(** X10: the edge cases of [find_unobstructed_sunset]: on an empty list
    of positions it returns [None] for every profile, the empty one
    included; on an empty profile and a non-empty list it raises
    [IndexError] at the first position; on a non-empty profile with
    normalised azimuths it returns for every list. *)
Theorem find_unobstructed_sunset_edges (self : TerrainProfile)
    (reference : Q) (p : SolarPosition) (positions : list SolarPosition) :
  find_unobstructed_sunset self [] = Ok None /\
  find_unobstructed_sunset (mkTerrainProfile [] reference) (p :: positions)
  = Raise IndexError /\
  (elevations self <> [] -> normalized self ->
   exists r, find_unobstructed_sunset self positions = Ok r).
Proof.
  split; [reflexivity|]. split; [reflexivity|].
  intros Hne Hn. now apply find_unobstructed_loop_total.
Qed.

Lemma find_unobstructed_sunset_edges_witness :
  elevations two_point_profile <> [] /\ normalized two_point_profile /\
  exists r,
    find_unobstructed_sunset two_point_profile
      [mkSolarPosition 20 0 16; mkSolarPosition 3 45 18] = Ok r.
Proof.
  assert (Hne : elevations two_point_profile <> []) by discriminate.
  assert (Hn : normalized two_point_profile)
    by (apply normalizedb_sound; reflexivity).
  split; [exact Hne|]. split; [exact Hn|].
  exact (proj2 (proj2 (find_unobstructed_sunset_edges two_point_profile 0
           (mkSolarPosition 0 0 0) _)) Hne Hn).
Defined.

(** ** Further properties of the crossing searches *)

(** X11: on a forward bracket with the sun above the threshold at its
    start and at or below it at its end, both bisections return an instant
    [r] inside the bracket at which the sun is at or below the threshold,
    and the sun is above the threshold at an instant at most one second
    before [r]: the crossing is located to the tolerance. *)
Theorem bisection_locates_crossing (provider : Q -> Q -> Q -> Z -> Q * Q)
    (self : SolarCalculator) (tb ta : Z) (target : Q) :
  let alt t := altitude (get_solar_position provider self t) in
  (tb < ta)%Z ->
  (target < alt tb -> alt ta <= target ->
   exists b r,
     _binary_search_altitude_crossing provider self tb ta target 1 = Ok r /\
     (tb <= b < r)%Z /\ (r <= ta)%Z /\ (r - b <= SECOND)%Z /\
     target < alt b /\ alt r <= target) /\
  (0 < alt tb -> alt ta <= 0 ->
   exists b r,
     _binary_search_horizon_crossing provider self tb ta 1 = Ok r /\
     (tb <= b < r)%Z /\ (r <= ta)%Z /\ (r - b <= SECOND)%Z /\
     0 < alt b /\ alt r <= 0).
Proof.
  intros alt Hlt. split; intros Hb Ha.
  - destruct (binary_search_altitude_converges provider self tb ta target
                Hlt Hb Ha) as (b & r & Hr & H1 & H2 & H3 & H4 & H5).
    exists b, r. repeat split; try assumption; try lia.
  - destruct (binary_search_altitude_converges provider self tb ta 0
                Hlt Hb Ha) as (b & r & Hr & H1 & H2 & H3 & H4 & H5).
    exists b, r. rewrite binary_search_horizon_eq.
    repeat split; try assumption; try lia.
Qed.

Lemma bisection_locates_crossing_witness :
  (at_ordinal 739665 12 0 < at_ordinal 739665 12 1)%Z /\
  exists b r,
    _binary_search_horizon_crossing early_set test_calc
      (at_ordinal 739665 12 0) (at_ordinal 739665 12 1) 1 = Ok r /\
    (r - b <= SECOND)%Z /\
    0 < altitude (get_solar_position early_set test_calc b) /\
    altitude (get_solar_position early_set test_calc r) <= 0.
Proof.
  assert (Hlt : (at_ordinal 739665 12 0 < at_ordinal 739665 12 1)%Z)
    by reflexivity.
  split; [exact Hlt|].
  destruct (bisection_locates_crossing early_set test_calc _ _ 0 Hlt)
    as [_ H].
  destruct H as (b & r & Hr & _ & _ & Hw & Hb & Ha).
  - apply Qlt_bool_iff. vm_compute. reflexivity.
  - apply Qle_bool_iff. vm_compute. reflexivity.
  - exists b, r. repeat split; assumption.
Defined.

(** X12: with [tolerance_seconds = 0] the bisection need not end: on a
    bracket one microsecond wide whose start is above the threshold the
    midpoint rounds to the start, the bracket does not change, and the loop
    has not returned after any number of turns. *)
Theorem bisection_zero_tolerance_stalls
    (provider : Q -> Q -> Q -> Z -> Q * Q) (self : SolarCalculator)
    (tb : Z) (target : Q) (fuel : nat) :
  target < altitude (get_solar_position provider self tb) ->
  binary_search_altitude_loop provider fuel self tb (tb + 1)%Z target 0
  = OutOfFuel.
Proof.
  intro H. induction fuel as [|fuel IH]; [reflexivity|].
  cbn [binary_search_altitude_loop].
  replace (tb + 1 - tb)%Z with 1%Z by lia.
  change (total_seconds_gt 1 0) with true. cbv iota.
  change (td_div 1 2) with 0%Z. rewrite Z.add_0_r.
  apply Qlt_bool_iff in H. rewrite H. exact IH.
Qed.

Lemma bisection_zero_tolerance_stalls_witness :
  0 < altitude (get_solar_position polar_day test_calc test_date) /\
  binary_search_altitude_loop polar_day 1000 test_calc test_date
    (test_date + 1)%Z 0 0 = OutOfFuel.
Proof.
  assert (H : 0 < altitude (get_solar_position polar_day test_calc test_date))
    by reflexivity.
  split; [exact H|].
  exact (bisection_zero_tolerance_stalls polar_day test_calc test_date 0
           1000 H).
Defined.

Lemma scan_time_mono (start step : Z) (i j : nat) :
  (0 <= step)%Z -> (i <= j)%nat ->
  (scan_time start step i <= scan_time start step j)%Z.
Proof. unfold scan_time. intros. nia. Qed.

Lemma hour_before_23 (dt x : Z) :
  (replace_hour dt 12 <= x < replace_hour dt 23)%Z -> (hour x < 23)%Z.
Proof.
  unfold replace_hour, hour. intro H.
  assert (Hx : (0 <= x - dt / DAY * DAY < DAY)%Z)
    by (unfold DAY, HOUR, MINUTE, SECOND in *; lia).
  destruct (day_split (dt / DAY) _ Hx) as [_ Hmod].
  replace (dt / DAY * DAY + (x - dt / DAY * DAY))%Z with x in Hmod by lia.
  rewrite Hmod. apply Z.div_lt_upper_bound; [reflexivity|].
  unfold DAY, HOUR, MINUTE, SECOND in *. lia.
Qed.

Section SunsetSearch.

Variable provider : Q -> Q -> Q -> Z -> Q * Q.
Variable self : SolarCalculator.
Variable dt : Z.
Variable step_minutes : Z.
Hypothesis step_range : (1 <= step_minutes <= 60)%Z.

Let t : nat -> Z := sunset_time dt step_minutes.
Let alt : nat -> Q := sunset_altitude provider self dt step_minutes.
Let afternoon (i : nat) : Prop :=
  (replace_hour dt 12 <= t i < replace_hour dt 23)%Z.

(** A returned sunset comes from a pair of samples of the afternoon with
    the sun above the horizon and then at or below it. *)
Lemma find_sunset_loop_inv (fuel : nat) :
  forall i r,
    afternoon i ->
    find_sunset_loop provider fuel self dt step_minutes (t i) (alt i)
    = Ok (Some r) ->
    exists k,
      (i <= k)%nat /\ afternoon k /\ 0 < alt k /\ alt (S k) <= 0 /\
      _binary_search_horizon_crossing provider self (t k) (t (S k)) 1 = Ok r.
Proof.
  induction fuel as [|fuel IH]; intros i r Ha H; [discriminate|].
  unfold t, alt in H. rewrite find_sunset_loop_step in H by exact Ha.
  fold t alt in H.
  destruct (Qlt_bool 0 (alt i) && Qle_bool (alt (S i)) 0) eqn:E.
  - apply andb_true_iff in E. destruct E as [E1 E2].
    apply Qlt_bool_iff in E1. apply Qle_bool_iff in E2.
    destruct (_binary_search_horizon_crossing provider self (t i) (t (S i)) 1)
      as [r'| |] eqn:Hr; simpl in H; try discriminate.
    injection H as Heq. subst r'. exists i.
    split; [lia|]. split; [exact Ha|]. split; [exact E1|].
    split; [exact E2|exact Hr].
  - destruct (Z.leb_spec 23 (hour (t (S i)))) as [Hh|Hh]; [discriminate|].
    assert (Ha' : afternoon (S i)).
    { apply (afternoon_succ dt step_minutes step_range i Ha).
      fold t. lia. }
    destruct (IH (S i) r Ha' H) as (k & Hk & Hrest).
    exists k. split; [lia|exact Hrest].
Qed.

(** A pair of samples of the afternoon with the sun above the horizon and
    then at or below it makes the scan return at that pair or before. *)
Lemma find_sunset_loop_complete (d : nat) :
  forall i fuel k,
    (i + d = k)%nat -> (d < fuel)%nat ->
    afternoon i -> afternoon k -> 0 < alt k -> alt (S k) <= 0 ->
    exists r k0,
      find_sunset_loop provider fuel self dt step_minutes (t i) (alt i)
      = Ok (Some r) /\
      (i <= k0 <= k)%nat /\
      _binary_search_horizon_crossing provider self (t k0) (t (S k0)) 1 = Ok r.
Proof.
  induction d as [|d IH]; intros i fuel k Hik Hf Hi Hk H1 H2;
    (destruct fuel as [|fuel]; [lia|]);
    unfold t, alt; rewrite find_sunset_loop_step by exact Hi; fold t alt.
  - replace i with k in * by lia.
    apply Qlt_bool_iff in H1. apply Qle_bool_iff in H2. rewrite H1, H2.
    simpl andb. cbv iota.
    destruct (binary_search_altitude_total provider self (t k) (t (S k)) 0)
      as [r Hr].
    rewrite <- binary_search_horizon_eq in Hr. rewrite Hr.
    exists r, k. split; [reflexivity|]. split; [lia|exact Hr].
  - destruct (Qlt_bool 0 (alt i) && Qle_bool (alt (S i)) 0) eqn:E.
    + destruct (binary_search_altitude_total provider self (t i) (t (S i)) 0)
        as [r Hr].
      rewrite <- binary_search_horizon_eq in Hr. rewrite Hr.
      exists r, i. split; [reflexivity|]. split; [lia|exact Hr].
    + assert (Ha' : afternoon (S i)).
      { assert (Hm1 : (t i <= t (S i))%Z).
        { apply scan_time_mono; [unfold minutes, MINUTE, SECOND; lia|lia]. }
        assert (Hm2 : (t (S i) <= t k)%Z).
        { apply scan_time_mono; [unfold minutes, MINUTE, SECOND; lia|lia]. }
        unfold afternoon in *. lia. }
      pose proof (hour_before_23 dt (t (S i)) Ha') as Hh.
      destruct (Z.leb_spec 23 (hour (t (S i)))); [lia|].
      destruct (IH (S i) fuel k ltac:(lia) ltac:(lia) Ha' Hk H1 H2)
        as (r & k0 & Hr & Hk0 & Hb).
      exists r, k0. split; [exact Hr|]. split; [lia|exact Hb].
Qed.

Lemma afternoon_start : afternoon 0.
Proof.
  unfold afternoon, t, sunset_time, scan_time, replace_hour,
    HOUR, MINUTE, SECOND. lia.
Qed.

Lemma sunset_bracket (k : nat) (r : Z) :
  afternoon k ->
  _binary_search_horizon_crossing provider self (t k) (t (S k)) 1 = Ok r ->
  (t k < r <= t (S k))%Z /\
  (replace_hour dt 12 < r < replace_hour dt 23 + minutes step_minutes)%Z.
Proof.
  intros Ha Hr.
  assert (Hlt : (t k < t (S k))%Z).
  { unfold t, sunset_time. rewrite scan_time_succ.
    unfold minutes, MINUTE, SECOND. lia. }
  rewrite binary_search_horizon_eq in Hr.
  destruct (binary_search_altitude_forward provider self (t k) (t (S k)) 0 Hlt)
    as (b & r' & Hr' & Hb & Hra & _).
  rewrite Hr in Hr'. injection Hr' as <-.
  split; [lia|].
  unfold afternoon in Ha.
  assert (Hs : t (S k) = (t k + minutes step_minutes)%Z)
    by (unfold t, sunset_time; apply scan_time_succ).
  lia.
Qed.

End SunsetSearch.

(** X13: an instant returned by [find_sunset_time] (step of 1 to 60
    minutes) is a sunset located to the second: the sun is at or below the
    horizon at it and above the horizon at an instant at most one second
    earlier, and it lies after 12:00 of the day of [dt], less than one step
    after 23:00. *)
Theorem find_sunset_time_sound (provider : Q -> Q -> Q -> Z -> Q * Q)
    (self : SolarCalculator) (dt step_minutes r : Z) :
  (1 <= step_minutes <= 60)%Z ->
  find_sunset_time provider self dt step_minutes = Ok (Some r) ->
  let alt t := altitude (get_solar_position provider self t) in
  alt r <= 0 /\
  (exists b, (r - SECOND <= b < r)%Z /\ 0 < alt b) /\
  (replace_hour dt 12 < r < replace_hour dt 23 + minutes step_minutes)%Z.
Proof.
  intros Hs H alt.
  rewrite find_sunset_time_start in H.
  destruct (find_sunset_loop_inv provider self dt step_minutes Hs 1441 0 r
              (afternoon_start dt step_minutes) H)
    as (k & _ & Ha & H1 & H2 & Hr).
  destruct (sunset_bracket provider self dt step_minutes Hs k r Ha Hr)
    as [Hbr Hrange].
  assert (Hlt : (sunset_time dt step_minutes k
                 < sunset_time dt step_minutes (S k))%Z) by lia.
  destruct (binary_search_altitude_converges provider self _ _ 0 Hlt H1 H2)
    as (b & r' & Hr' & Hb & Hra & Hw & Hbv & Hrv).
  rewrite binary_search_horizon_eq in Hr. rewrite Hr in Hr'.
  injection Hr' as <-.
  split; [exact Hrv|]. split; [|exact Hrange].
  exists b. split; [lia|exact Hbv].
Qed.

Lemma find_sunset_time_sound_witness :
  (1 <= 1 <= 60)%Z /\
  find_sunset_time low_sun test_calc test_date 1
  = Ok (Some (at_ordinal 739665 16 0)) /\
  altitude (get_solar_position low_sun test_calc (at_ordinal 739665 16 0)) <= 0.
Proof.
  assert (Hs : (1 <= 1 <= 60)%Z) by lia.
  assert (H : find_sunset_time low_sun test_calc test_date 1
              = Ok (Some (at_ordinal 739665 16 0)))
    by (vm_compute; reflexivity).
  split; [exact Hs|]. split; [exact H|].
  exact (proj1 (find_sunset_time_sound low_sun test_calc test_date 1 _ Hs H)).
Defined.

(** X14: [find_sunset_time] (step of 1 to 60 minutes) misses no sunset of
    the afternoon: if some sample before 23:00 of the day of [dt] has the
    sun above the horizon and the next one has it at or below, the search
    returns an instant, no later than that next sample. *)
Theorem find_sunset_time_complete (provider : Q -> Q -> Q -> Z -> Q * Q)
    (self : SolarCalculator) (dt step_minutes : Z) (k : nat) :
  (1 <= step_minutes <= 60)%Z ->
  (sunset_time dt step_minutes k < replace_hour dt 23)%Z ->
  0 < sunset_altitude provider self dt step_minutes k ->
  sunset_altitude provider self dt step_minutes (S k) <= 0 ->
  exists r,
    find_sunset_time provider self dt step_minutes = Ok (Some r) /\
    (replace_hour dt 12 < r <= sunset_time dt step_minutes (S k))%Z.
Proof.
  intros Hs Hk H1 H2.
  assert (Ha : (replace_hour dt 12 <= sunset_time dt step_minutes k
                < replace_hour dt 23)%Z).
  { split; [|exact Hk].
    pose proof (afternoon_start dt step_minutes) as H0.
    pose proof (scan_time_mono (replace_hour dt 12) (minutes step_minutes)
                  0 k) as Hm.
    unfold sunset_time in *. unfold minutes, MINUTE, SECOND in Hm.
    unfold minutes, MINUTE, SECOND in *. lia. }
  pose proof (afternoon_bound dt step_minutes Hs k Ha) as Hb.
  destruct (find_sunset_loop_complete provider self dt step_minutes Hs k 0
              1441 k eq_refl ltac:(lia) (afternoon_start dt step_minutes)
              Ha H1 H2) as (r & k0 & Hr & Hk0 & Hbis).
  exists r. split; [rewrite find_sunset_time_start; exact Hr|].
  assert (Ha0 : (replace_hour dt 12 <= sunset_time dt step_minutes k0
                 < replace_hour dt 23)%Z).
  { pose proof (afternoon_start dt step_minutes) as H0.
    cbv beta zeta in H0.
    assert (Hm1 : (sunset_time dt step_minutes 0
                   <= sunset_time dt step_minutes k0)%Z).
    { apply scan_time_mono; [unfold minutes, MINUTE, SECOND; lia|lia]. }
    assert (Hm2 : (sunset_time dt step_minutes k0
                   <= sunset_time dt step_minutes k)%Z).
    { apply scan_time_mono; [unfold minutes, MINUTE, SECOND; lia|lia]. }
    lia. }
  destruct (sunset_bracket provider self dt step_minutes Hs k0 r Ha0 Hbis)
    as [Hbr Hrange].
  assert (Hm : (sunset_time dt step_minutes (S k0)
                <= sunset_time dt step_minutes (S k))%Z).
  { apply scan_time_mono; [unfold minutes, MINUTE, SECOND; lia|lia]. }
  lia.
Qed.

Lemma find_sunset_time_complete_witness :
  (1 <= 1 <= 60)%Z /\
  (sunset_time test_date 1 0 < replace_hour test_date 23)%Z /\
  exists r,
    find_sunset_time early_set test_calc test_date 1 = Ok (Some r) /\
    (r <= sunset_time test_date 1 1)%Z.
Proof.
  assert (Hs : (1 <= 1 <= 60)%Z) by lia.
  assert (Hk : (sunset_time test_date 1 0 < replace_hour test_date 23)%Z)
    by reflexivity.
  split; [exact Hs|]. split; [exact Hk|].
  destruct (find_sunset_time_complete early_set test_calc test_date 1 0 Hs Hk)
    as (r & Hr & Hrange).
  - apply Qlt_bool_iff. vm_compute. reflexivity.
  - apply Qle_bool_iff. vm_compute. reflexivity.
  - exists r. split; [exact Hr|lia].
Defined.

Lemma twilight_time_step (dt : Z) (search_forward : bool) (k : nat) :
  twilight_time dt search_forward (S k)
  = (twilight_time dt search_forward k
     + (if search_forward then HOUR else - HOUR))%Z.
Proof.
  unfold twilight_time. rewrite scan_time_succ. unfold hours.
  destruct search_forward; lia.
Qed.

Section TwilightSearch.

Variable provider : Q -> Q -> Q -> Z -> Q * Q.
Variable self : SolarCalculator.
Variable dt : Z.
Variable target : Q.
Variable search_forward : bool.

Let t : nat -> Z := twilight_time dt search_forward.
Let diff : nat -> Q := twilight_diff provider self dt target search_forward.

(** A returned crossing comes from a pair of consecutive samples with
    [diff_prev * diff_curr <= 0], reached within the bound of the scan. *)
Lemma find_altitude_loop_inv (fuel : nat) :
  forall i r,
    (i <= 60)%nat ->
    find_altitude_loop provider fuel self dt target
      (if search_forward then 1%Z else (-1)%Z) (t i) (diff i)
    = Ok (Some r) ->
    exists k,
      (i <= k <= 60)%nat /\ diff k * diff (S k) <= 0 /\
      _binary_search_altitude_crossing provider self (t k) (t (S k)) target 1
      = Ok r.
Proof.
  induction fuel as [|fuel IH]; intros i r Hi H; [discriminate|].
  unfold t, diff in H. rewrite find_altitude_loop_step in H. fold t diff in H.
  destruct (Qle_bool (diff i * diff (S i)) 0) eqn:E.
  - apply Qle_bool_iff in E.
    destruct (_binary_search_altitude_crossing provider self (t i) (t (S i))
                target 1) as [r'| |] eqn:Hr; simpl in H; try discriminate.
    injection H as Heq. subst r'. exists i.
    split; [lia|]. split; [exact E|exact Hr].
  - destruct (Z.ltb_spec 1 (Z.abs (td_days (t (S i) - dt)))) as [Ho|Ho];
      [discriminate|].
    assert (Hb : (S i <= 60)%nat).
    { apply (twilight_scan_bound provider self dt target search_forward).
      fold t. lia. }
    destruct (IH (S i) r Hb H) as (k & Hk & Hrest).
    exists k. split; [lia|exact Hrest].
Qed.

(** Where a returned crossing lies: in the first bracket reported, for a
    forward search; at the far end of that bracket, a whole number of hours
    before 12:00, for a backward search. *)
Lemma find_altitude_crossing_bracket (r : Z) :
  _find_altitude_crossing provider self dt target search_forward
  = Ok (Some r) ->
  exists k,
    (k <= 60)%nat /\ diff k * diff (S k) <= 0 /\
    if search_forward then (t k < r <= t (S k))%Z else r = t (S k).
Proof.
  intro H. rewrite find_altitude_crossing_start in H.
  destruct (find_altitude_loop_inv 100 0 r ltac:(lia) H)
    as (k & Hk & Hc & Hr).
  exists k. split; [lia|]. split; [exact Hc|].
  pose proof (twilight_time_step dt search_forward k) as Hs. fold t in Hs.
  destruct search_forward.
  - assert (Hlt : (t k < t (S k))%Z) by (unfold HOUR, MINUTE, SECOND in Hs; lia).
    destruct (binary_search_altitude_forward provider self (t k) (t (S k))
                target Hlt) as (b & r' & Hr' & Hb & Hra & _).
    rewrite Hr in Hr'. injection Hr' as <-. lia.
  - assert (Hle : (t (S k) <= t k)%Z) by (unfold HOUR, MINUTE, SECOND in Hs; lia).
    rewrite (binary_search_backward provider self (t k) (t (S k)) target Hle)
      in Hr.
    now injection Hr as <-.
Qed.

End TwilightSearch.



(** X16: an instant returned by [_find_altitude_crossing] belongs to a
    bracket of consecutive hourly samples with [diff_prev * diff_curr <= 0],
    at most 61 hours from 12:00 of the day of [dt]: inside the bracket for
    a forward search, and exactly its far end (a whole number of hours
    before 12:00, not refined) for a backward search. *)
Theorem find_altitude_crossing_where (provider : Q -> Q -> Q -> Z -> Q * Q)
    (self : SolarCalculator) (dt : Z) (target : Q) (search_forward : bool)
    (r : Z) :
  _find_altitude_crossing provider self dt target search_forward
  = Ok (Some r) ->
  exists k,
    (k <= 60)%nat /\
    twilight_diff provider self dt target search_forward k
    * twilight_diff provider self dt target search_forward (S k) <= 0 /\
    if search_forward then
      (replace_hour dt 12 + Z.of_nat k * HOUR < r
       <= replace_hour dt 12 + Z.of_nat (S k) * HOUR)%Z
    else r = (replace_hour dt 12 - Z.of_nat (S k) * HOUR)%Z.
Proof.
  intro H.
  destruct (find_altitude_crossing_bracket provider self dt target
              search_forward r H) as (k & Hk & Hc & Hr).
  exists k. split; [exact Hk|]. split; [exact Hc|].
  unfold twilight_time, scan_time, hours in Hr.
  destruct search_forward; lia.
Qed.

Lemma find_altitude_crossing_where_witness :
  _find_altitude_crossing dawn_rise test_calc (test_date - days 1) (-6) false
  = Ok (Some (at_ordinal 739664 6 0)) /\
  exists k,
    (k <= 60)%nat /\
    at_ordinal 739664 6 0
    = (replace_hour (test_date - days 1) 12 - Z.of_nat (S k) * HOUR)%Z.
Proof.
  assert (H : _find_altitude_crossing dawn_rise test_calc
                (test_date - days 1) (-6) false
              = Ok (Some (at_ordinal 739664 6 0)))
    by (vm_compute; reflexivity).
  split; [exact H|].
  destruct (find_altitude_crossing_where dawn_rise test_calc _ _ false _ H)
    as (k & Hk & _ & Hr).
  exists k. split; [exact Hk|exact Hr].
Defined.

Lemma replace_hour_yesterday (dt h : Z) :
  replace_hour (dt - days 1) h = (replace_hour dt h - DAY)%Z.
Proof.
  unfold replace_hour, days.
  replace (dt - 1 * DAY)%Z with (dt + (-1) * DAY)%Z by lia.
  rewrite Z.div_add by discriminate. lia.
Qed.

(** X17: [get_civil_twilight_times] returns for every date whose scans,
    and those of the day before, stay inside the range of [datetime].  A
    dusk it reports lies after 12:00 of the day of [dt], at most 61 hours
    after it; a dawn it reports lies at least 25 hours before that 12:00:
    it belongs to the previous day or earlier, never to the morning of
    [dt]. *)
Theorem civil_twilight_times_range (provider : Q -> Q -> Q -> Z -> Q * Q)
    (self : SolarCalculator) (dt : Z) :
  scan_in_range dt -> scan_in_range (dt - days 1) ->
  exists times,
    get_civil_twilight_times provider self dt = Ok times /\
    (forall dusk, civil_dusk times = Some dusk ->
       (replace_hour dt 12 < dusk <= replace_hour dt 12 + 61 * HOUR)%Z) /\
    (forall dawn, civil_dawn times = Some dawn ->
       (replace_hour dt 12 - 85 * HOUR <= dawn
        <= replace_hour dt 12 - 25 * HOUR)%Z).
Proof.
  intros _ _. unfold get_civil_twilight_times.
  destruct (find_altitude_crossing_total provider self dt (-6) true)
    as [dusk Hdusk].
  destruct (find_altitude_crossing_total provider self (dt - days 1) (-6) false)
    as [dawn Hdawn].
  rewrite Hdusk, Hdawn. cbn [bind].
  eexists. split; [reflexivity|]. cbn [civil_dusk civil_dawn]. split.
  - intros u ->.
    destruct (find_altitude_crossing_bracket provider self dt (-6) true u Hdusk)
      as (k & Hk & _ & Hr).
    unfold twilight_time, scan_time, hours in Hr.
    unfold HOUR, MINUTE, SECOND in *. lia.
  - intros w ->.
    destruct (find_altitude_crossing_bracket provider self (dt - days 1) (-6)
                false w Hdawn) as (k & Hk & _ & Hr).
    unfold twilight_time, scan_time, hours in Hr.
    rewrite replace_hour_yesterday in Hr.
    unfold DAY, HOUR, MINUTE, SECOND in *. lia.
Qed.

Lemma civil_twilight_times_range_witness :
  scan_in_range test_date /\ scan_in_range (test_date - days 1) /\
  exists times,
    get_civil_twilight_times dawn_rise test_calc test_date = Ok times /\
    forall dawn, civil_dawn times = Some dawn ->
      (dawn <= replace_hour test_date 12 - 25 * HOUR)%Z.
Proof.
  assert (H1 : scan_in_range test_date) by (split; vm_compute; discriminate).
  assert (H2 : scan_in_range (test_date - days 1))
    by (split; vm_compute; discriminate).
  split; [exact H1|]. split; [exact H2|].
  destruct (civil_twilight_times_range dawn_rise test_calc test_date H1 H2)
    as (times & Ht & _ & Hdawn).
  exists times. split; [exact Ht|].
  intros dawn Hd. exact (proj2 (Hdawn dawn Hd)).
Defined.

(** ** Further properties of the Composer *)

Lemma minute_samples_In (provider : Q -> Q -> Q -> Z -> Q * Q)
    (calc : SolarCalculator) (start : Z) (n : nat) (pos : SolarPosition) :
  In pos (minute_samples provider calc start n) ->
  exists k, (k < n)%nat /\ time pos = (start + Z.of_nat k * MINUTE)%Z /\
            pos = get_solar_position provider calc (time pos).
Proof.
  unfold minute_samples. intro H. apply in_map_iff in H.
  destruct H as (k & <- & Hk). apply in_seq in Hk.
  exists k. repeat split. lia.
Qed.

Lemma minute_samples_sorted (provider : Q -> Q -> Q -> Z -> Q * Q)
    (calc : SolarCalculator) (n : nat) :
  forall start,
    StronglySorted (fun p p' => (time p < time p')%Z)
                   (minute_samples provider calc start n).
Proof.
  induction n as [|n IH]; intro start.
  - constructor.
  - rewrite minute_samples_succ. constructor; [apply IH|].
    rewrite Forall_forall. intros p Hp.
    apply minute_samples_In in Hp. destruct Hp as (k & _ & Ht & _).
    rewrite Ht. cbn [time get_solar_position].
    unfold minutes, MINUTE, SECOND. lia.
Qed.

Lemma filter_sorted {A : Type} (R : A -> A -> Prop) (f : A -> bool)
    (l : list A) :
  StronglySorted R l -> StronglySorted R (filter f l).
Proof.
  induction 1 as [|a l Hs IH Hall]; simpl; [constructor|].
  destruct (f a); [|exact IH].
  constructor; [exact IH|].
  rewrite Forall_forall in *. intros x Hx. apply filter_In in Hx.
  now apply Hall.
Qed.

(** In a list sorted by time the first element is the earliest and the
    last one the latest. *)
Lemma sorted_ends (l : list SolarPosition) (first last pos : SolarPosition) :
  StronglySorted (fun p p' => (time p < time p')%Z) l ->
  hd_error l = Some first -> hd_error (rev l) = Some last -> In pos l ->
  (time first <= time pos <= time last)%Z.
Proof.
  intros Hs Hf Hl Hin. split.
  - destruct l as [|a l]; [discriminate|]. injection Hf as ->.
    inversion Hs as [|? ? _ Hall]; subst.
    destruct Hin as [<-|Hin]; [lia|].
    rewrite Forall_forall in Hall. specialize (Hall pos Hin). lia.
  - assert (Hlast : exists l', l = l' ++ [last]).
    { destruct (rev l) as [|b l'] eqn:E; [discriminate|].
      injection Hl as ->. exists (rev l').
      rewrite <- (rev_involutive l), E. reflexivity. }
    destruct Hlast as [l' ->].
    apply in_app_or in Hin. destruct Hin as [Hin|[<-|[]]]; [|lia].
    clear Hf Hl. induction l' as [|a l' IH]; [destruct Hin|].
    simpl in Hs. inversion Hs as [|? ? Hs' Hall]; subst.
    destruct Hin as [<-|Hin]; [|now apply IH].
    rewrite Forall_forall in Hall.
    assert (H : (time a < time last)%Z)
      by (apply Hall; apply in_or_app; right; now left).
    lia.
Qed.

Lemma hd_error_In {A : Type} (l : list A) (a : A) :
  hd_error l = Some a -> In a l.
Proof. destruct l; [discriminate|]. intros [= ->]. now left. Qed.

Lemma last_error_In {A : Type} (l : list A) (a : A) :
  hd_error (rev l) = Some a -> In a l.
Proof. intro H. apply in_rev. now apply hd_error_In. Qed.

Lemma kept_positions_sorted (provider : Q -> Q -> Q -> Z -> Q * Q)
    (latitude longitude elevation : Q) (date : Z)
    (terrain_file : option TerrainFile) :
  StronglySorted (fun p p' => (time p < time p')%Z)
    (kept_positions provider latitude longitude elevation date terrain_file).
Proof. apply filter_sorted, minute_samples_sorted. Qed.

Lemma kept_positions_In (provider : Q -> Q -> Q -> Z -> Q * Q)
    (latitude longitude elevation : Q) (date : Z)
    (terrain_file : option TerrainFile) (pos : SolarPosition) :
  In pos (kept_positions provider latitude longitude elevation date
            terrain_file) ->
  (exists k, (k < 1440)%nat /\
             time pos = (replace_hour date 0 + Z.of_nat k * MINUTE)%Z) /\
  pos = get_solar_position provider
          (mkSolarCalculator latitude longitude elevation) (time pos) /\
  sample_kept
    (match terrain_file with
     | Some data => load_from_file init data
     | None => init
     end)
    (match terrain_file with Some _ => true | None => false end) pos = true.
Proof.
  unfold kept_positions. intro H. apply filter_In in H.
  destruct H as [Hin Hk]. apply minute_samples_In in Hin.
  destruct Hin as (k & Hlt & Ht & Hp).
  split; [now exists k|]. split; assumption.
Qed.

(** X18: the report of the Composer, for a [date] whose day is not the
    last one of [datetime] and on a usable terrain, is consistent:
    [has_sunlight] holds exactly when the first and last instants are
    present; both are whole minutes of the day of [date], the first not
    after the last, so that the window lasts between 0 and 1439 minutes;
    and every position the Composer kept lies between them. *)
Theorem predict_sunlight_loss_window (provider : Q -> Q -> Q -> Z -> Q * Q)
    (latitude longitude elevation : Q) (date : Z)
    (terrain_file : option TerrainFile) :
  sweep_in_range date ->
  usable_terrain terrain_file ->
  exists r,
    predict_sunlight_loss provider latitude longitude elevation date
                          terrain_file = Ok r /\
    (has_sunlight r = true ->
     exists sunrise sunset i j,
       first_direct_sunlight r = Some sunrise /\
       last_direct_sunlight r = Some sunset /\
       sunrise = (replace_hour date 0 + Z.of_nat i * MINUTE)%Z /\
       sunset = (replace_hour date 0 + Z.of_nat j * MINUTE)%Z /\
       (i <= j < 1440)%nat /\
       window_duration r = Some (Z.of_nat (j - i) * MINUTE)%Z /\
       forall pos,
         In pos (kept_positions provider latitude longitude elevation date
                   terrain_file) ->
         (sunrise <= time pos <= sunset)%Z) /\
    (has_sunlight r = false ->
     first_direct_sunlight r = None /\ last_direct_sunlight r = None /\
     window_duration r = None).
Proof.
  intros _ Hu. eexists. split; [now apply predict_sunlight_loss_report|].
  set (l := kept_positions provider latitude longitude elevation date
              terrain_file).
  pose proof (kept_positions_sorted provider latitude longitude elevation date
                terrain_file) as Hs. fold l in Hs.
  unfold window_duration.
  cbn [has_sunlight first_direct_sunlight last_direct_sunlight].
  split.
  - intro Hl.
    destruct (hd_error l) as [first|] eqn:Hf.
    2:{ destruct l; [discriminate Hl|discriminate Hf]. }
    destruct (hd_error (rev l)) as [last|] eqn:Hla.
    2:{ destruct l as [|a l']; [discriminate Hf|].
        simpl in Hla. destruct (rev l'); discriminate Hla. }
    pose proof (hd_error_In _ _ Hf) as Hinf.
    pose proof (last_error_In _ _ Hla) as Hinl.
    destruct (kept_positions_In _ _ _ _ _ _ _ Hinf) as [(i & Hi & Hti) _].
    destruct (kept_positions_In _ _ _ _ _ _ _ Hinl) as [(j & Hj & Htj) _].
    pose proof (sorted_ends l first last last Hs Hf Hla Hinl) as Hfl.
    assert (Hij : (i <= j)%nat)
      by (unfold MINUTE, SECOND in *; lia).
    exists (time first), (time last), i, j. cbn [option_map].
    split; [reflexivity|]. split; [reflexivity|].
    split; [exact Hti|]. split; [exact Htj|]. split; [lia|]. split.
    + f_equal. rewrite Hti, Htj. rewrite Nat2Z.inj_sub by exact Hij.
      unfold MINUTE, SECOND. lia.
    + intros pos Hpos. exact (sorted_ends l first last pos Hs Hf Hla Hpos).
  - intro Hl. destruct l; [|discriminate Hl]. repeat split.
Qed.

Lemma predict_sunlight_loss_window_witness :
  sweep_in_range test_date /\ usable_terrain None /\
  exists r,
    predict_sunlight_loss low_sun 0 0 0 test_date None = Ok r /\
    has_sunlight r = true /\
    exists sunrise sunset,
      first_direct_sunlight r = Some sunrise /\
      last_direct_sunlight r = Some sunset /\ (sunrise <= sunset)%Z.
Proof.
  assert (Hd : sweep_in_range test_date) by (split; vm_compute; discriminate).
  assert (Hu : usable_terrain None) by exact I.
  split; [exact Hd|]. split; [exact Hu|].
  destruct (predict_sunlight_loss_window low_sun 0 0 0 test_date None Hd Hu)
    as (r & Hr & Htrue & _).
  assert (Hs : has_sunlight r = true).
  { pose proof Hr as Hc. vm_compute in Hc. injection Hc as Hc.
    rewrite <- Hc. reflexivity. }
  exists r. split; [exact Hr|]. split; [exact Hs|].
  destruct (Htrue Hs) as (sunrise & sunset & i & j & H1 & H2 & Hi & Hj & Hij & _).
  exists sunrise, sunset. split; [exact H1|]. split; [exact H2|].
  unfold MINUTE, SECOND in *. lia.
Defined.

(** X19: the positions that the Composer reports, for a [date] whose day
    is not the last one of [datetime], are themselves visible: without a
    terrain file the sun is above the horizon at the reported rise and
    loss; with a usable terrain file it is not blocked there. *)
Theorem predict_sunlight_loss_ends_visible
    (provider : Q -> Q -> Q -> Z -> Q * Q)
    (latitude longitude elevation : Q) (date : Z)
    (terrain_file : option TerrainFile) :
  sweep_in_range date ->
  usable_terrain terrain_file ->
  let visible alt az :=
    match terrain_file with
    | Some data => is_sun_blocked (load_from_file init data) alt az = Ok false
    | None => 0 < alt
    end in
  exists r,
    predict_sunlight_loss provider latitude longitude elevation date
                          terrain_file = Ok r /\
    (forall alt az,
       sun_altitude_at_rise r = Some alt -> sun_azimuth_at_rise r = Some az ->
       visible alt az) /\
    (forall alt az,
       sun_altitude_at_loss r = Some alt -> sun_azimuth_at_loss r = Some az ->
       visible alt az).
Proof.
  intros _ Hu visible. eexists.
  split; [now apply predict_sunlight_loss_report|].
  set (l := kept_positions provider latitude longitude elevation date
              terrain_file).
  cbn [sun_altitude_at_rise sun_azimuth_at_rise sun_altitude_at_loss
       sun_azimuth_at_loss].
  assert (Hv : forall p, In p l -> visible (altitude p) (azimuth p)).
  { intros p Hp. apply kept_positions_In in Hp. destruct Hp as (_ & _ & Hk).
    unfold visible. unfold sample_kept, sample_keep in Hk.
    destruct terrain_file as [data|].
    - destruct (is_sun_blocked (load_from_file init data) (altitude p)
                  (azimuth p)) as [b| |]; simpl in Hk; try discriminate.
      apply negb_true_iff in Hk. now rewrite Hk.
    - now apply Qlt_bool_iff. }
  split; intros alt az Ha Hz.
  - destruct (hd_error l) as [p|] eqn:Hp; [|discriminate].
    simpl in Ha, Hz. injection Ha as <-. injection Hz as <-.
    apply Hv. now apply hd_error_In.
  - destruct (hd_error (rev l)) as [p|] eqn:Hp; [|discriminate].
    simpl in Ha, Hz. injection Ha as <-. injection Hz as <-.
    apply Hv. now apply last_error_In.
Qed.

Lemma predict_sunlight_loss_ends_visible_witness :
  sweep_in_range test_date /\ usable_terrain None /\
  exists r,
    predict_sunlight_loss low_sun 0 0 0 test_date None = Ok r /\
    forall alt az,
      sun_altitude_at_rise r = Some alt -> sun_azimuth_at_rise r = Some az ->
      0 < alt.
Proof.
  assert (Hd : sweep_in_range test_date) by (split; vm_compute; discriminate).
  assert (Hu : usable_terrain None) by exact I.
  split; [exact Hd|]. split; [exact Hu|].
  destruct (predict_sunlight_loss_ends_visible low_sun 0 0 0 test_date None
              Hd Hu)
    as (r & Hr & Hrise & _).
  exists r. split; [exact Hr|exact Hrise].
Defined.



Lemma nonnegative_obstruction (self : TerrainProfile) (q : Q) :
  elevations self <> [] -> normalized self ->
  (forall k v, dict_find (elevations self) k = Some v -> 0 <= v) ->
  exists o, get_obstruction_angle self q = Ok o /\ 0 <= o.
Proof.
  intros Hne Hn Hb.
  destruct (get_obstruction_angle_cases self q Hne Hn)
    as (o & a1 & a2 & el1 & el2 & f & Ho & H1 & H2 & Hf0 & Hf1 & Heq).
  exists o. split; [exact Ho|].
  pose proof (Hb _ _ H1). pose proof (Hb _ _ H2).
  rewrite Heq. nra.
Qed.

(** Two lists of positions, the first sorted by time and containing the
    second: the second begins no earlier and ends no later. *)
Lemma window_inside (l0 l1 : list SolarPosition) :
  StronglySorted (fun p p' => (time p < time p')%Z) l0 ->
  (forall p, In p l1 -> In p l0) ->
  ((0 <? length l1)%nat = true -> (0 <? length l0)%nat = true) /\
  (forall sunrise1 sunset1,
     option_map time (hd_error l1) = Some sunrise1 ->
     option_map time (hd_error (rev l1)) = Some sunset1 ->
     exists sunrise0 sunset0,
       option_map time (hd_error l0) = Some sunrise0 /\
       option_map time (hd_error (rev l0)) = Some sunset0 /\
       (sunrise0 <= sunrise1)%Z /\ (sunset1 <= sunset0)%Z) /\
  (forall d1,
     match option_map time (hd_error l1),
           option_map time (hd_error (rev l1)) with
     | Some sunrise, Some sunset => Some (sunset - sunrise)%Z
     | _, _ => None
     end = Some d1 ->
     exists d0,
       match option_map time (hd_error l0),
             option_map time (hd_error (rev l0)) with
       | Some sunrise, Some sunset => Some (sunset - sunrise)%Z
       | _, _ => None
       end = Some d0 /\ (d1 <= d0)%Z).
Proof.
  intros Hs0 Hincl.
  assert (Hends : forall p1 q1,
            hd_error l1 = Some p1 -> hd_error (rev l1) = Some q1 ->
            exists p0 q0,
              hd_error l0 = Some p0 /\ hd_error (rev l0) = Some q0 /\
              (time p0 <= time p1)%Z /\ (time q1 <= time q0)%Z).
  { intros p1 q1 Hp1 Hq1.
    pose proof (Hincl _ (hd_error_In _ _ Hp1)) as Hin1.
    pose proof (Hincl _ (last_error_In _ _ Hq1)) as Hin2.
    destruct (hd_error l0) as [p0|] eqn:Hp0.
    2:{ destruct l0; [destruct Hin1|discriminate Hp0]. }
    destruct (hd_error (rev l0)) as [q0|] eqn:Hq0.
    2:{ destruct l0 as [|a l']; [destruct Hin1|].
        simpl in Hq0. destruct (rev l'); discriminate Hq0. }
    exists p0, q0. split; [reflexivity|]. split; [reflexivity|].
    pose proof (sorted_ends l0 p0 q0 p1 Hs0 Hp0 Hq0 Hin1).
    pose proof (sorted_ends l0 p0 q0 q1 Hs0 Hp0 Hq0 Hin2). lia. }
  split; [|split].
  - intro H1. destruct l1 as [|p1 l1']; [discriminate H1|].
    destruct l0 as [|p0 l0']; [|reflexivity].
    destruct (Hincl p1 (or_introl eq_refl)).
  - intros s1 e1 Hf Hl.
    destruct (hd_error l1) as [p1|] eqn:Hp1; [|discriminate Hf].
    destruct (hd_error (rev l1)) as [q1|] eqn:Hq1; [|discriminate Hl].
    destruct (Hends p1 q1 eq_refl eq_refl) as (p0 & q0 & H0 & H0' & Hle1 & Hle2).
    rewrite H0, H0'. simpl in Hf, Hl. injection Hf as <-. injection Hl as <-.
    exists (time p0), (time q0). repeat split; assumption.
  - intros d1 Hd.
    destruct (hd_error l1) as [p1|] eqn:Hp1; [|discriminate Hd].
    destruct (hd_error (rev l1)) as [q1|] eqn:Hq1; [|discriminate Hd].
    destruct (Hends p1 q1 eq_refl eq_refl) as (p0 & q0 & H0 & H0' & Hle1 & Hle2).
    rewrite H0, H0'. simpl in Hd |- *. injection Hd as <-.
    eexists. split; [reflexivity|]. lia.
Qed.

Lemma kept_positions_iff (provider : Q -> Q -> Q -> Z -> Q * Q)
    (latitude longitude elevation : Q) (date : Z)
    (terrain_file : option TerrainFile) (pos : SolarPosition) :
  In pos (kept_positions provider latitude longitude elevation date
            terrain_file) <->
  In pos (minute_samples provider
            (mkSolarCalculator latitude longitude elevation)
            (replace_hour date 0) 1440) /\
  sample_kept
    (match terrain_file with
     | Some data => load_from_file init data
     | None => init
     end)
    (match terrain_file with Some _ => true | None => false end) pos = true.
Proof. unfold kept_positions. apply filter_In. Qed.

Lemma kept_with_terrain_included (provider : Q -> Q -> Q -> Z -> Q * Q)
    (latitude longitude elevation : Q) (date : Z) (data : TerrainFile) :
  elevations (load_from_file init data) <> [] ->
  normalized (load_from_file init data) ->
  (forall k v,
     dict_find (elevations (load_from_file init data)) k = Some v -> 0 <= v) ->
  forall p,
    In p (kept_positions provider latitude longitude elevation date
            (Some data)) ->
    In p (kept_positions provider latitude longitude elevation date None).
Proof.
  intros Hne Hn Hpos p Hp.
  apply (proj1 (kept_positions_iff provider latitude longitude elevation date
                  (Some data) p)) in Hp.
  destruct Hp as [Hin Hk].
  apply (proj2 (kept_positions_iff provider latitude longitude elevation date
                  None p)).
  split; [exact Hin|].
  destruct (nonnegative_obstruction (load_from_file init data) (azimuth p)
              Hne Hn Hpos) as (o & Ho & Ho0).
  exact (kept_with_terrain_above_horizon (load_from_file init data) p o
           Ho Ho0 Hk).
Qed.

(** X21: terrain that nowhere falls below the horizontal never lengthens
    the window: for a [date] whose day is not the last one of [datetime]
    and a terrain file that loads to a non-empty profile with normalised
    azimuths and no negative obstruction angle, sunlight with terrain
    implies sunlight without, the window with terrain lies inside the
    window without, and its duration is not larger. *)
Theorem terrain_above_horizon_shortens
    (provider : Q -> Q -> Q -> Z -> Q * Q)
    (latitude longitude elevation : Q) (date : Z) (data : TerrainFile) :
  sweep_in_range date ->
  elevations (load_from_file init data) <> [] ->
  normalized (load_from_file init data) ->
  (forall k v,
     dict_find (elevations (load_from_file init data)) k = Some v -> 0 <= v) ->
  exists r0 r1,
    predict_sunlight_loss provider latitude longitude elevation date None
    = Ok r0 /\
    predict_sunlight_loss provider latitude longitude elevation date
                          (Some data) = Ok r1 /\
    (has_sunlight r1 = true -> has_sunlight r0 = true) /\
    (forall sunrise1 sunset1,
       first_direct_sunlight r1 = Some sunrise1 ->
       last_direct_sunlight r1 = Some sunset1 ->
       exists sunrise0 sunset0,
         first_direct_sunlight r0 = Some sunrise0 /\
         last_direct_sunlight r0 = Some sunset0 /\
         (sunrise0 <= sunrise1)%Z /\ (sunset1 <= sunset0)%Z) /\
    (forall d1,
       window_duration r1 = Some d1 ->
       exists d0, window_duration r0 = Some d0 /\ (d1 <= d0)%Z).
Proof.
  intros _ Hne Hn Hpos.
  exists (mkPrediction (latitude, longitude, elevation) date
            (0 <? length (kept_positions provider latitude longitude elevation
                            date None))%nat
            (option_map time (hd_error (kept_positions provider latitude
               longitude elevation date None)))
            (option_map altitude (hd_error (kept_positions provider latitude
               longitude elevation date None)))
            (option_map azimuth (hd_error (kept_positions provider latitude
               longitude elevation date None)))
            (option_map time (hd_error (rev (kept_positions provider latitude
               longitude elevation date None))))
            (option_map altitude (hd_error (rev (kept_positions provider
               latitude longitude elevation date None))))
            (option_map azimuth (hd_error (rev (kept_positions provider
               latitude longitude elevation date None))))
            false).
  exists (mkPrediction (latitude, longitude, elevation) date
            (0 <? length (kept_positions provider latitude longitude elevation
                            date (Some data)))%nat
            (option_map time (hd_error (kept_positions provider latitude
               longitude elevation date (Some data))))
            (option_map altitude (hd_error (kept_positions provider latitude
               longitude elevation date (Some data))))
            (option_map azimuth (hd_error (kept_positions provider latitude
               longitude elevation date (Some data))))
            (option_map time (hd_error (rev (kept_positions provider latitude
               longitude elevation date (Some data)))))
            (option_map altitude (hd_error (rev (kept_positions provider
               latitude longitude elevation date (Some data)))))
            (option_map azimuth (hd_error (rev (kept_positions provider
               latitude longitude elevation date (Some data)))))
            true).
  split; [exact (predict_sunlight_loss_report provider latitude longitude
                   elevation date None I)|].
  split; [exact (predict_sunlight_loss_report provider latitude longitude
                   elevation date (Some data) (conj Hne Hn))|].
  exact (window_inside _ _
           (kept_positions_sorted provider latitude longitude elevation date
              None)
           (kept_with_terrain_included provider latitude longitude elevation
              date data Hne Hn Hpos)).
Qed.

(** A terrain file with one sample 5 degrees above the horizontal. *)
Lemma ridge_values (k v : Q) :
  dict_find (elevations (load_from_file init
                           (mkTerrainFile (Some [(180, 5)]) None))) k = Some v ->
  0 <= v.
Proof.
  simpl. destruct (Qeq_bool 180 k); [intros [= <-]|]; discriminate.
Qed.

Lemma terrain_above_horizon_shortens_witness :
  let data := mkTerrainFile (Some [(180, 5)]) None in
  sweep_in_range test_date /\
  elevations (load_from_file init data) <> [] /\
  normalized (load_from_file init data) /\
  exists r0 r1,
    predict_sunlight_loss low_sun 0 0 0 test_date None = Ok r0 /\
    predict_sunlight_loss low_sun 0 0 0 test_date (Some data) = Ok r1 /\
    forall d1,
      window_duration r1 = Some d1 ->
      exists d0, window_duration r0 = Some d0 /\ (d1 <= d0)%Z.
Proof.
  intro data.
  assert (Hne : elevations (load_from_file init data) <> []) by discriminate.
  assert (Hn : normalized (load_from_file init data))
    by (apply normalizedb_sound; reflexivity).
  assert (Hs : sweep_in_range test_date) by (split; vm_compute; discriminate).
  split; [exact Hs|]. split; [exact Hne|]. split; [exact Hn|].
  destruct (terrain_above_horizon_shortens low_sun 0 0 0 test_date data
              Hs Hne Hn ridge_values) as (r0 & r1 & H0 & H1 & _ & _ & Hd).
  exists r0, r1. split; [exact H0|]. split; [exact H1|exact Hd].
Defined.
